(** * Shallow embedding of the luxen storefront cart logic

    Sources embedded:
    - [src/src/lib/cartStorage.ts]: the local (guest) cart store with its
      localStorage -> sessionStorage -> memory fallback chain;
    - [src/unnamed/part_000] ([App.tsx]): the auth-state-change handler of
      [AuthProvider] (guest cart merge), the cart view's [loadCart] and
      [updateLocalQuantity], the checkout read, [handleAddToCart] and the
      size recommendation [calculateRecommendedSize] / [calculateSuggestedSize].

    Modelling choices:
    - JavaScript numbers used as cart quantities are integers at every call
      site and are modelled as [Z]; prices ([69.99]) and body measurements
      are decimals and are modelled as [Q] (every double is a
      rational, and the subtraction [inseam - sizeInseam] is exact for the
      inputs where the comparison can succeed, by Sterbenz's lemma).
    - A storage slot holds the decoded cart: [JSON.parse (JSON.stringify l)]
      is the identity on these flat records of strings and numbers.
    - A thrown exception is the [Thrown] outcome of a small state/exception
      monad; state changes made before a throw are kept, as in JavaScript. *)

From Stdlib Require Import String Ascii List ZArith QArith Qabs Lia Bool.
Import ListNotations.
Open Scope string_scope.

(** ** Data model *)

Record LocalCartItem := mkLocalCartItem {
  product_name : string;
  product_price : Q;
  quantity : Z;
  size : string;
  localId : string
}.

(** [Omit<LocalCartItem, 'localId'>] *)
Record NewCartItem := mkNewCartItem {
  n_product_name : string;
  n_product_price : Q;
  n_quantity : Z;
  n_size : string
}.

(** A browser storage area and the value under the key ['cart'] ([None]
    when the key is absent): every access throws (storage disabled), every
    access works, or [setItem] throws while [getItem] and [removeItem] work
    (quota exceeded, private browsing). *)
Inductive Slot :=
| Broken
| Avail (v : option (list LocalCartItem))
| ReadOnly (v : option (list LocalCartItem)).

(** Calls made to the outside world by the local store. *)
Inductive StorageCall :=
| LsSet | SsSet | LsRemove | SsRemove
| LsTestSet | LsTestRemove        (** the probe key ['__storage_test__'] *)
| Warn (msg : string).

Record St := mkSt {
  localStorage : Slot;
  sessionStorage : Slot;
  memoryCart : list LocalCartItem;   (** the module variable [memoryCart] *)
  crypto_ok : bool;                  (** whether [crypto.randomUUID] works *)
  seed : nat;                        (** source of fresh random ids *)
  calls : list StorageCall           (** storage writes and warnings, newest last *)
}.

Inductive Res (A : Type) := Ok (a : A) | Thrown.
Arguments Ok {A} a.
Arguments Thrown {A}.

(** ** The state/exception monad *)

Definition M (A : Type) := St -> Res A * St.

Definition ret {A} (a : A) : M A := fun st => (Ok a, st).

Definition bind {A B} (m : M A) (f : A -> M B) : M B :=
  fun st => match m st with
            | (Ok a, st') => f a st'
            | (Thrown, st') => (Thrown, st')
            end.

Notation "x <- m ;; k" := (bind m (fun x => k))
  (at level 61, m at next level, right associativity).
Notation "m ;;; k" := (bind m (fun _ => k))
  (at level 61, right associativity).

(** [try { m } catch { h }] *)
Definition try_catch {A} (m h : M A) : M A :=
  fun st => match m st with
            | (Ok a, st') => (Ok a, st')
            | (Thrown, st') => h st'
            end.

Definition emit (c : StorageCall) : M unit :=
  fun st => (Ok tt, {| localStorage := localStorage st;
                       sessionStorage := sessionStorage st;
                       memoryCart := memoryCart st;
                       crypto_ok := crypto_ok st;
                       seed := seed st;
                       calls := calls st ++ [c] |}).

Definition set_memoryCart (l : list LocalCartItem) : M unit :=
  fun st => (Ok tt, {| localStorage := localStorage st;
                       sessionStorage := sessionStorage st;
                       memoryCart := l;
                       crypto_ok := crypto_ok st;
                       seed := seed st;
                       calls := calls st |}).

Definition get_memoryCart : M (list LocalCartItem) :=
  fun st => (Ok (memoryCart st), st).

(** ** Storage primitives *)

Inductive Area := LocalArea | SessionArea.

Definition slot_of (a : Area) (st : St) : Slot :=
  match a with LocalArea => localStorage st | SessionArea => sessionStorage st end.

Definition put_slot (a : Area) (s : Slot) : M unit :=
  fun st => (Ok tt, {| localStorage := match a with LocalArea => s | _ => localStorage st end;
                       sessionStorage := match a with SessionArea => s | _ => sessionStorage st end;
                       memoryCart := memoryCart st;
                       crypto_ok := crypto_ok st;
                       seed := seed st;
                       calls := calls st |}).

(** [area.getItem('cart')] *)
Definition getItem (a : Area) : M (option (list LocalCartItem)) :=
  fun st => match slot_of a st with
            | Broken => (Thrown, st)
            | Avail v | ReadOnly v => (Ok v, st)
            end.

(** [area.setItem('cart', JSON.stringify(items))]; the attempt is recorded. *)
Definition setItem (a : Area) (items : list LocalCartItem) : M unit :=
  emit (match a with LocalArea => LsSet | SessionArea => SsSet end) ;;;
  fun st => match slot_of a st with
            | Broken | ReadOnly _ => (Thrown, st)
            | Avail _ => put_slot a (Avail (Some items)) st
            end.

(** [area.removeItem('cart')]; the attempt is recorded. *)
Definition removeItem (a : Area) : M unit :=
  emit (match a with LocalArea => LsRemove | SessionArea => SsRemove end) ;;;
  fun st => match slot_of a st with
            | Broken => (Thrown, st)
            | Avail _ => put_slot a (Avail None) st
            | ReadOnly _ => put_slot a (ReadOnly None) st
            end.

(** [cart ? JSON.parse(cart) : []] *)
Definition parse_or_empty (c : option (list LocalCartItem)) : list LocalCartItem :=
  match c with Some l => l | None => [] end.

(** ** cartStorage.ts *)

Definition getLocalCart : M (list LocalCartItem) :=
  try_catch
    (c <- getItem LocalArea ;; ret (parse_or_empty c))
    (try_catch
       (c <- getItem SessionArea ;; ret (parse_or_empty c))
       get_memoryCart).

Definition saveLocalCart (items : list LocalCartItem) : M unit :=
  set_memoryCart items ;;;
  try_catch
    (setItem LocalArea items)
    (try_catch
       (setItem SessionArea items)
       (emit (Warn "Unable to save cart to storage, using memory only"))).

(** Decimal rendering of a natural number (used to build ids). *)
Fixpoint digits_aux (fuel n : nat) (acc : string) : string :=
  match fuel with
  | O => acc
  | S f =>
      let d := Nat.modulo n 10 in
      let acc' := String (Ascii.ascii_of_nat (48 + d)) acc in
      if Nat.ltb n 10 then acc' else digits_aux f (Nat.div n 10) acc'
  end.

Definition show_nat (n : nat) : string := digits_aux (S n) n "".

(** [crypto.randomUUID()]: throws when unavailable. *)
Definition randomUUID : M string :=
  fun st => if crypto_ok st
            then (Ok ("uuid-" ++ show_nat (seed st)),
                  {| localStorage := localStorage st; sessionStorage := sessionStorage st;
                     memoryCart := memoryCart st; crypto_ok := crypto_ok st;
                     seed := S (seed st); calls := calls st |})
            else (Thrown, st).

(** [`${Date.now()}-${Math.random().toString(36).substring(2, 9)}`] *)
Definition fallbackId : M string :=
  fun st => (Ok ("t-" ++ show_nat (seed st)),
             {| localStorage := localStorage st; sessionStorage := sessionStorage st;
                memoryCart := memoryCart st; crypto_ok := crypto_ok st;
                seed := S (seed st); calls := calls st |}).

Definition generateUUID : M string := try_catch randomUUID fallbackId.

(** [Array.prototype.find] followed by an in-place update of the found
    object: only the first element satisfying [p] is changed. *)
Fixpoint update_first {A} (p : A -> bool) (f : A -> A) (l : list A) : list A :=
  match l with
  | [] => []
  | x :: t => if p x then f x :: t else x :: update_first p f t
  end.

Definition same_line (item : NewCartItem) (i : LocalCartItem) : bool :=
  String.eqb (product_name i) (n_product_name item) && String.eqb (size i) (n_size item).

Definition with_quantity (q : Z) (i : LocalCartItem) : LocalCartItem :=
  {| product_name := product_name i; product_price := product_price i;
     quantity := q; size := size i; localId := localId i |}.

Definition attach_id (item : NewCartItem) (id : string) : LocalCartItem :=
  {| product_name := n_product_name item; product_price := n_product_price item;
     quantity := n_quantity item; size := n_size item; localId := id |}.

(** [addToLocalCart].  When the cart came from [memoryCart] the found object
    and the pushed-to array are [memoryCart] itself; [saveLocalCart] then
    stores that same array, so the functional update below gives the same
    final state on every path. *)
Definition addToLocalCart (item : NewCartItem) : M unit :=
  cart <- getLocalCart ;;
  match find (same_line item) cart with
  | Some existingItem =>
      saveLocalCart (update_first (same_line item)
                       (fun i => with_quantity (quantity i + n_quantity item) i) cart)
  | None =>
      id <- generateUUID ;;
      saveLocalCart (cart ++ [attach_id item id])
  end.

Definition removeFromLocalCart (id : string) : M unit :=
  cart <- getLocalCart ;;
  saveLocalCart (filter (fun item => negb (String.eqb (localId item) id)) cart).

Definition has_id (id : string) (i : LocalCartItem) : bool := String.eqb (localId i) id.

Definition updateLocalCartQuantity (id : string) (q : Z) : M unit :=
  cart <- getLocalCart ;;
  match find (has_id id) cart with
  | Some item => saveLocalCart (update_first (has_id id) (with_quantity q) cart)
  | None => ret tt
  end.

Definition clearLocalCart : M unit :=
  set_memoryCart [] ;;;
  try_catch
    (removeItem LocalArea)
    (try_catch
       (removeItem SessionArea)
       (emit (Warn "Unable to clear cart from storage"))).

(** ** Cart view ([Cart] component) on the local store *)

(** [updateLocalQuantity]: the guard, the store call, then
    [setLocalItems(getLocalCart())]; the list handed to the view is the
    result. *)
Definition updateLocalQuantity (id : string) (q : Z) : M (option (list LocalCartItem)) :=
  if Z.ltb q 1 then ret None
  else updateLocalCartQuantity id q ;;; l <- getLocalCart ;; ret (Some l).

(** ** Remote cart table ([cart_items]) *)

Definition UserId := string.

Record CartRow := mkCartRow {
  id : nat;
  user_id : UserId;
  r_product_name : string;
  r_product_price : Q;
  r_quantity : Z;
  r_size : string
}.

(** The object passed to [supabase.from('cart_items').insert(...)]. *)
Record InsertReq := mkInsertReq {
  i_user_id : UserId;
  i_product_name : string;
  i_product_price : Q;
  i_quantity : Z;
  i_size : string
}.

(** The backend: its rows, the next server id, and the outcome of each
    upcoming network call ([true]: transport failure; when the list is
    exhausted calls succeed).  supabase-js resolves a failed call with an
    [error] field instead of rejecting. *)
Record Remote := mkRemote {
  rows : list CartRow;
  next_row : nat;
  net : list bool
}.

Definition pop_net (r : Remote) : bool * Remote :=
  match net r with
  | [] => (false, r)
  | b :: bs => (b, {| rows := rows r; next_row := next_row r; net := bs |})
  end.

(** [insert] resolves to [{ error }]: [Some msg] on failure. *)
Definition remote_insert (req : InsertReq) (r : Remote) : option string * Remote :=
  let (fail, r1) := pop_net r in
  if fail then (Some "network error", r1)
  else (None, {| rows := rows r1 ++ [{| id := next_row r1; user_id := i_user_id req;
                                        r_product_name := i_product_name req;
                                        r_product_price := i_product_price req;
                                        r_quantity := i_quantity req;
                                        r_size := i_size req |}];
                 next_row := S (next_row r1); net := net r1 |}).

(** The [{ data, error }] pair returned by a select. *)
Record SelectResult := mkSelectResult {
  data : option (list CartRow);
  error : option string
}.

(** [select('*').eq('user_id', u)] *)
Definition remote_select (u : UserId) (r : Remote) : SelectResult * Remote :=
  let (fail, r1) := pop_net r in
  if fail then ({| data := None; error := Some "network error" |}, r1)
  else ({| data := Some (filter (fun row => String.eqb (user_id row) u) (rows r1));
           error := None |}, r1).

(** [Cart.loadCart]: the new value of the view's [items] state. *)
Definition loadCart (user : option UserId) (items : list CartRow) (res : SelectResult)
  : list CartRow :=
  match user with
  | None => items
  | Some _ =>
      match error res, data res with
      | None, Some d => d
      | _, _ => items
      end
  end.

(** [handleShopifyCheckout], authenticated branch: [items = data || []]. *)
Definition checkoutItems (res : SelectResult) : list CartRow :=
  match data res with Some d => d | None => [] end.

(** ** The application world seen by [AuthProvider] *)

(** Calls the auth-change handler makes on the two cart stores. *)
Inductive HandlerCall :=
| CInsert (req : InsertReq)
| CClearLocal.

Record World := mkWorld {
  store : St;
  remote : Remote;
  user : option UserId;          (** the [user] state of [AuthProvider] *)
  captured : option UserId;      (** [user] as seen by the subscribed callback *)
  trace : list HandlerCall
}.

Definition set_store (s : St) (w : World) : World :=
  {| store := s; remote := remote w; user := user w; captured := captured w; trace := trace w |}.
Definition set_remote (r : Remote) (w : World) : World :=
  {| store := store w; remote := r; user := user w; captured := captured w; trace := trace w |}.
Definition set_user (u : option UserId) (w : World) : World :=
  {| store := store w; remote := remote w; user := u; captured := captured w; trace := trace w |}.
Definition set_captured (u : option UserId) (w : World) : World :=
  {| store := store w; remote := remote w; user := user w; captured := u; trace := trace w |}.
Definition log_call (c : HandlerCall) (w : World) : World :=
  {| store := store w; remote := remote w; user := user w; captured := captured w;
     trace := trace w ++ [c] |}.

Definition insert_of (u : UserId) (item : LocalCartItem) : InsertReq :=
  {| i_user_id := u; i_product_name := product_name item;
     i_product_price := product_price item; i_quantity := quantity item;
     i_size := size item |}.

(** [for (const item of localItems) await supabase.from('cart_items').insert(...)];
    the resolved [{ error }] is not inspected. *)
Fixpoint insert_all (u : UserId) (items : list LocalCartItem) (w : World) : World :=
  match items with
  | [] => w
  | item :: rest =>
      let req := insert_of u item in
      let (_err, r') := remote_insert req (remote w) in
      insert_all u rest (set_remote r' (log_call (CInsert req) w))
  end.

(** The callback given to [supabase.auth.onAuthStateChange], run to
    completion.  [prevUser] is the [user] captured by the closure. *)
Definition onAuthStateChange_cb (session_user : option UserId) (w : World) : World :=
  let newUser := session_user in
  let prevUser := captured w in
  let w1 := set_user newUser w in
  match newUser, prevUser with
  | Some u, None =>
      match getLocalCart (store w1) with
      | (Thrown, st1) => set_store st1 w1
      | (Ok localItems, st1) =>
          let w2 := set_store st1 w1 in
          if Nat.ltb 0 (length localItems) then
            let w3 := insert_all u localItems w2 in
            let (_, st4) := clearLocalCart (store w3) in
            set_store st4 (log_call CClearLocal w3)
          else w2
      end
  | _, _ => w1
  end.

(** After [setUser] the provider re-renders; the effect depends on [user],
    so it unsubscribes and subscribes a new callback that captures the
    current [user]. *)
Definition rerender (w : World) : World := set_captured (user w) w.

(** Delivery of one auth state change (login, logout or token refresh),
    followed by the re-render it causes. *)
Definition deliver (session_user : option UserId) (w : World) : World :=
  rerender (onAuthStateChange_cb session_user w).

Fixpoint deliver_all (evs : list (option UserId)) (w : World) : World :=
  match evs with
  | [] => w
  | e :: es => deliver_all es (deliver e w)
  end.

(** [ProductCard.handleAddToCart] with the selected size. *)
Definition handleAddToCart (selectedSize : string) (w : World) : World :=
  match user w with
  | Some u =>
      let (_, r') := remote_insert {| i_user_id := u; i_product_name := "SWEATPANTS";
                                      i_product_price := 6999 # 100; i_quantity := 1;
                                      i_size := selectedSize |} (remote w) in
      set_remote r' w
  | None =>
      let (_, st') := addToLocalCart {| n_product_name := "SWEATPANTS";
                                        n_product_price := 6999 # 100; n_quantity := 1;
                                        n_size := selectedSize |} (store w) in
      set_store st' w
  end.

(** ** Size recommendation *)

(** [sizeChart], in the order [Object.entries] yields its (non-numeric)
    keys: insertion order.  The same literal appears in [AuthModal] and in
    [ProductCard]. *)
Definition sizeChart : list (string * (string * string)) :=
  [("XS", ("28-30", "28"));
   ("S",  ("30-32", "29"));
   ("M",  ("32-34", "30"));
   ("L",  ("34-36", "31"));
   ("XL", ("36-38", "32"))].

(** [s.split(sep)] *)
Fixpoint split_on (sep : Ascii.ascii) (s : string) : list string :=
  match s with
  | EmptyString => [""]
  | String c rest =>
      if Ascii.eqb c sep then "" :: split_on sep rest
      else match split_on sep rest with
           | w :: ws => String c w :: ws
           | [] => [String c ""]
           end
  end.

Fixpoint parse_digits (s : string) (acc : Z) : option Z :=
  match s with
  | EmptyString => Some acc
  | String c rest =>
      let n := Ascii.nat_of_ascii c in
      if andb (Nat.leb 48 n) (Nat.leb n 57)
      then parse_digits rest (acc * 10 + Z.of_nat (n - 48))
      else None
  end.

(** [Number(s)] on unsigned decimal integer literals; [None] is [NaN]
    ([Number('')] is [0]). *)
Definition Number (s : string) : option Q :=
  match s with
  | EmptyString => Some 0
  | _ => option_map (fun z => inject_Z z) (parse_digits s 0)
  end.

(** Comparisons of JavaScript numbers: any comparison with [NaN] is false. *)
Definition js_ge (x : Q) (y : option Q) : bool :=
  match y with Some y => Qle_bool y x | None => false end.
Definition js_le (x : Q) (y : option Q) : bool :=
  match y with Some y => Qle_bool x y | None => false end.
Definition js_abs_diff_le (x : Q) (y : option Q) (bound : Q) : bool :=
  match y with Some y => Qle_bool (Qabs (x - y)) bound | None => false end.

(** One iteration of the [for ... of Object.entries(sizeChart)] loop. *)
Definition size_fits (waist inseam : Q) (m : string * string) : bool :=
  let parts := map Number (split_on "-"%char (fst m)) in
  let waistMin := nth 0 parts None in
  let waistMax := nth 1 parts None in
  let sizeInseam := Number (snd m) in
  js_ge waist waistMin && js_le waist waistMax &&
  js_abs_diff_le inseam sizeInseam (3 # 2).

Fixpoint first_fitting (waist inseam : Q) (entries : list (string * (string * string)))
  : string :=
  match entries with
  | [] => "M"
  | (sz, m) :: rest => if size_fits waist inseam m then sz else first_fitting waist inseam rest
  end.

(** [ProductCard.calculateRecommendedSize] *)
Definition calculateRecommendedSize (waist inseam : Q) : string :=
  first_fitting waist inseam sizeChart.

(** [AuthModal.calculateSuggestedSize]: the same code over the same chart. *)
Definition calculateSuggestedSize (waist inseam : Q) : string :=
  first_fitting waist inseam sizeChart.

(** ** Reference definitions following the spec's words *)

(** The size chart as numbers: waist range and inseam per size, in the
    order XS, S, M, L, XL. *)
Definition chart_numbers : list (string * (Q * Q * Q)) :=
  [("XS", (28, 30, 28)); ("S", (30, 32, 29)); ("M", (32, 34, 30));
   ("L", (34, 36, 31)); ("XL", (36, 38, 32))].

(** The first size whose waist range contains [waist] and whose inseam is
    within 1.5 of [inseam]; [M] when there is none. *)
Fixpoint spec_recommended (waist inseam : Q) (chart : list (string * (Q * Q * Q))) : string :=
  match chart with
  | [] => "M"
  | (sz, (lo, hi, ins)) :: rest =>
      if Qle_bool lo waist && Qle_bool waist hi && Qle_bool (Qabs (inseam - ins)) (3 # 2)
      then sz else spec_recommended waist inseam rest
  end.

(** The plain in-memory list with the Local Cart Store's operations
    (spec 4.1): [add] increments a line with the same
    [(productName, size)] or appends a new line with a fresh id; [remove]
    deletes the line with the id; [updateQuantity] sets the quantity of the
    line with the id; [clear] empties the list. *)
Module MemList.

Definition add (fresh : string) (item : NewCartItem) (l : list LocalCartItem)
  : list LocalCartItem :=
  if existsb (same_line item) l
  then update_first (same_line item) (fun i => with_quantity (quantity i + n_quantity item) i) l
  else l ++ [attach_id item fresh].

Definition remove (id : string) (l : list LocalCartItem) : list LocalCartItem :=
  filter (fun i => negb (has_id id i)) l.

Definition updateQuantity (id : string) (q : Z) (l : list LocalCartItem) : list LocalCartItem :=
  update_first (has_id id) (with_quantity q) l.

Definition clear (l : list LocalCartItem) : list LocalCartItem := [].

End MemList.

(** The id [generateUUID] produces from the seed. *)
Definition uuid_for (crypto : bool) (n : nat) : string :=
  if crypto then "uuid-" ++ show_nat n else "t-" ++ show_nat n.

(** Operations of the Local Cart Store as the cart view issues them. *)
Inductive CartOp :=
| OpList
| OpAdd (item : NewCartItem)
| OpRemove (id : string)
| OpUpdate (id : string) (q : Z)
| OpClear.

Definition store_op (o : CartOp) : M (option (list LocalCartItem)) :=
  match o with
  | OpList => l <- getLocalCart ;; ret (Some l)
  | OpAdd item => addToLocalCart item ;;; ret None
  | OpRemove id => removeFromLocalCart id ;;; ret None
  | OpUpdate id q => updateLocalCartQuantity id q ;;; ret None
  | OpClear => clearLocalCart ;;; ret None
  end.

Fixpoint run_store (os : list CartOp) : M (list (option (list LocalCartItem))) :=
  match os with
  | [] => ret []
  | o :: rest => r <- store_op o ;; rs <- run_store rest ;; ret (r :: rs)
  end.

(** The same operations on a plain list, with a counter for fresh ids. *)
Fixpoint run_mem (crypto : bool) (os : list CartOp) (n : nat) (l : list LocalCartItem)
  : list (option (list LocalCartItem)) * list LocalCartItem :=
  match os with
  | [] => ([], l)
  | OpList :: rest => let (rs, l') := run_mem crypto rest n l in (Some l :: rs, l')
  | OpAdd item :: rest =>
      let n' := if existsb (same_line item) l then n else S n in
      let (rs, l') := run_mem crypto rest n' (MemList.add (uuid_for crypto n) item l) in
      (None :: rs, l')
  | OpRemove id :: rest =>
      let (rs, l') := run_mem crypto rest n (MemList.remove id l) in (None :: rs, l')
  | OpUpdate id q :: rest =>
      let (rs, l') := run_mem crypto rest n (MemList.updateQuantity id q l) in (None :: rs, l')
  | OpClear :: rest =>
      let (rs, l') := run_mem crypto rest n (MemList.clear l) in (None :: rs, l')
  end.

(** *** Keys [(productName, size)] *)

Definition line_key (i : LocalCartItem) : string * string := (product_name i, size i).
Definition new_key (n : NewCartItem) : string * string := (n_product_name n, n_size n).

Definition key_eqb (a b : string * string) : bool :=
  String.eqb (fst a) (fst b) && String.eqb (snd a) (snd b).

(** Quantity of the first line with key [k] ([0] when there is none). *)
Definition qty_of (k : string * string) (l : list LocalCartItem) : Z :=
  match find (fun i => key_eqb (line_key i) k) l with
  | Some i => quantity i
  | None => 0%Z
  end.

(** Sum of the quantities added for key [k]. *)
Definition added_qty (k : string * string) (items : list NewCartItem) : Z :=
  fold_right Z.add 0%Z (map n_quantity (filter (fun it => key_eqb (new_key it) k) items)).

Fixpoint add_all (items : list NewCartItem) : M unit :=
  match items with
  | [] => ret tt
  | it :: rest => addToLocalCart it ;;; add_all rest
  end.

(** A row's [(productName, size)]. *)
Definition row_key (r : CartRow) : string * string := (r_product_name r, r_size r).

(** Sample states and carts. *)
Definition sweatpants (sz : string) (q : Z) : NewCartItem :=
  {| n_product_name := "SWEATPANTS"; n_product_price := 6999 # 100; n_quantity := q;
     n_size := sz |}.

Definition line (lid sz : string) (q : Z) : LocalCartItem :=
  {| product_name := "SWEATPANTS"; product_price := 6999 # 100; quantity := q;
     size := sz; localId := lid |}.

(** Working localStorage holding [items]. *)
Definition st_local (items : list LocalCartItem) : St :=
  {| localStorage := Avail (Some items); sessionStorage := Avail None; memoryCart := [];
     crypto_ok := true; seed := 0; calls := [] |}.

(** Both storage areas throwing, the module variable holding [items]. *)
Definition st_memory (items : list LocalCartItem) : St :=
  {| localStorage := Broken; sessionStorage := Broken; memoryCart := items;
     crypto_ok := false; seed := 0; calls := [] |}.

Definition empty_remote : Remote := {| rows := []; next_row := 0; net := [] |}.

Definition world (u : option UserId) (st : St) (r : Remote) : World :=
  {| store := st; remote := r; user := u; captured := u; trace := [] |}.

(** The insert request a stored row came from. *)
Definition row_req (row : CartRow) : InsertReq :=
  {| i_user_id := user_id row; i_product_name := r_product_name row;
     i_product_price := r_product_price row; i_quantity := r_quantity row;
     i_size := r_size row |}.

(** The items whose insert succeeds, given the upcoming network outcomes. *)
Fixpoint kept (outcomes : list bool) (items : list LocalCartItem) : list LocalCartItem :=
  match items with
  | [] => []
  | i :: t =>
      match outcomes with
      | [] => i :: kept [] t
      | true :: os => kept os t
      | false :: os => i :: kept os t
      end
  end.

(** Remote backend whose first call fails. *)
Definition flaky_remote : Remote := {| rows := []; next_row := 0; net := [true] |}.

Definition sample_row : CartRow :=
  {| id := 7; user_id := "u1"; r_product_name := "SWEATPANTS"; r_product_price := 6999 # 100;
     r_quantity := 1; r_size := "M" |}.

(** ** Further code: cart view on the remote table *)

(** [update({ quantity }).eq('id', id)]; the row-level policy of
    [cart_items] limits it to the signed-in user's rows. *)
Definition with_row_quantity (q : Z) (row : CartRow) : CartRow :=
  {| id := id row; user_id := user_id row; r_product_name := r_product_name row;
     r_product_price := r_product_price row; r_quantity := q; r_size := r_size row |}.

Definition remote_update_quantity (u : UserId) (rid : nat) (q : Z) (r : Remote)
  : option string * Remote :=
  let (fail, r1) := pop_net r in
  if fail then (Some "network error", r1)
  else (None, {| rows := map (fun row => if Nat.eqb (id row) rid && String.eqb (user_id row) u
                                         then with_row_quantity q row else row) (rows r1);
                 next_row := next_row r1; net := net r1 |}).

(** [delete().eq('id', id)], under the same policy. *)
Definition remote_delete (u : UserId) (rid : nat) (r : Remote) : option string * Remote :=
  let (fail, r1) := pop_net r in
  if fail then (Some "network error", r1)
  else (None, {| rows := filter (fun row => negb (Nat.eqb (id row) rid && String.eqb (user_id row) u))
                           (rows r1);
                 next_row := next_row r1; net := net r1 |}).

(** [Cart.updateQuantity] for a signed-in user [u]: the view's [items] and
    the backend.  The result of the update is not inspected. *)
Definition Cart_updateQuantity (u : UserId) (rid : nat) (q : Z) (items : list CartRow) (r : Remote)
  : list CartRow * Remote :=
  if Z.ltb q 1 then (items, r)
  else let (_, r') := remote_update_quantity u rid q r in
       (map (fun item => if Nat.eqb (id item) rid then with_row_quantity q item else item) items, r').

(** [Cart.removeItem] for a signed-in user [u]. *)
Definition Cart_removeItem (u : UserId) (rid : nat) (items : list CartRow) (r : Remote)
  : list CartRow * Remote :=
  let (_, r') := remote_delete u rid r in
  (filter (fun item => negb (Nat.eqb (id item) rid)) items, r').

(** ** Further code: the auth session storage of [supabase.ts] *)

(** A key/value area as an association list. *)
Definition KV := list (string * string).

Fixpoint kv_get (k : string) (m : KV) : option string :=
  match m with
  | [] => None
  | (k', v) :: t => if String.eqb k' k then Some v else kv_get k t
  end.

Definition kv_del (k : string) (m : KV) : KV :=
  filter (fun p => negb (String.eqb (fst p) k)) m.

Definition kv_set (k v : string) (m : KV) : KV := (k, v) :: kv_del k m.

(** A storage area as the adapter sees it: every access throws, every
    access works, or [setItem] throws while [getItem] and [removeItem]
    work (quota exceeded, private browsing). *)
Inductive KSlot := KBroken | KAvail (m : KV) | KReadOnly (m : KV).

Record AuthStorage := mkAuthStorage {
  a_local : KSlot;
  a_session : KSlot;
  memoryStorage : KV      (** the module object [memoryStorage] *)
}.

(** [getStorageItem]: [memoryStorage[key] || null] turns an empty string
    into [null]. *)
Definition getStorageItem (k : string) (s : AuthStorage) : option string :=
  match a_local s with
  | KAvail m | KReadOnly m => kv_get k m
  | KBroken =>
      match a_session s with
      | KAvail m | KReadOnly m => kv_get k m
      | KBroken =>
          match kv_get k (memoryStorage s) with
          | Some v => if String.eqb v "" then None else Some v
          | None => None
          end
      end
  end.

Definition setStorageItem (k v : string) (s : AuthStorage) : AuthStorage :=
  match a_local s with
  | KAvail m => {| a_local := KAvail (kv_set k v m); a_session := a_session s;
                   memoryStorage := memoryStorage s |}
  | KBroken | KReadOnly _ =>
      match a_session s with
      | KAvail m => {| a_local := a_local s; a_session := KAvail (kv_set k v m);
                       memoryStorage := memoryStorage s |}
      | KBroken | KReadOnly _ => {| a_local := a_local s; a_session := a_session s;
                                    memoryStorage := kv_set k v (memoryStorage s) |}
      end
  end.

Definition removeStorageItem (k : string) (s : AuthStorage) : AuthStorage :=
  match a_local s with
  | KAvail m => {| a_local := KAvail (kv_del k m); a_session := a_session s;
                   memoryStorage := memoryStorage s |}
  | KReadOnly m => {| a_local := KReadOnly (kv_del k m); a_session := a_session s;
                      memoryStorage := memoryStorage s |}
  | KBroken =>
      match a_session s with
      | KAvail m => {| a_local := KBroken; a_session := KAvail (kv_del k m);
                       memoryStorage := memoryStorage s |}
      | KReadOnly m => {| a_local := KBroken; a_session := KReadOnly (kv_del k m);
                          memoryStorage := memoryStorage s |}
      | KBroken => {| a_local := KBroken; a_session := KBroken;
                      memoryStorage := kv_del k (memoryStorage s) |}
      end
  end.

(** ** Further code: [Checkout.handleShopifyCheckout] *)

(** The checkout platform: the variants of the fetched product ([None]
    when [product.fetch] resolves to nothing), the created checkout, and
    the outcome of each upcoming call ([true]: the call rejects). *)
Record Shop := mkShop {
  product_variants : option (list string);
  checkout_id : string;
  web_url : string;
  shop_net : list bool
}.

Record LineItem := mkLineItem {
  variantId : string;
  li_quantity : Z;
  customAttributes : list (string * string)
}.

(** Calls made to the platform, and the final browser redirect. *)
Inductive ShopCall :=
| FetchProduct
| CreateCheckout
| AddLineItems (cid : string) (items : list LineItem)
| Redirect (url : string).

Definition shop_pop (s : Shop) : bool * Shop :=
  match shop_net s with
  | [] => (false, s)
  | b :: bs => (b, {| product_variants := product_variants s; checkout_id := checkout_id s;
                      web_url := web_url s; shop_net := bs |})
  end.

(** The [(quantity, size)] the loop reads from each cart item. *)
Definition lines_of_rows (rs : list CartRow) : list (Z * string) :=
  map (fun r => (r_quantity r, r_size r)) rs.
Definition lines_of_local (l : list LocalCartItem) : list (Z * string) :=
  map (fun i => (quantity i, size i)) l.

Definition line_call (cid v : string) (line : Z * string) : ShopCall :=
  AddLineItems cid [{| variantId := v; li_quantity := fst line;
                       customAttributes := [("Size", snd line)] |}].

(** The [for (const item of items) await addLineItems(...)] loop followed
    by [window.location.href = checkout.webUrl]; a rejected call jumps to
    the [catch], which reports the error. *)
Fixpoint add_lines (cid v url : string) (lines : list (Z * string)) (s : Shop)
  : list ShopCall * option string :=
  match lines with
  | [] => ([Redirect url], None)
  | line :: rest =>
      let (fail, s') := shop_pop s in
      if fail then ([line_call cid v line], Some "addLineItems failed")
      else let (cs, e) := add_lines cid v url rest s' in (line_call cid v line :: cs, e)
  end.

(** [handleShopifyCheckout]: the platform calls made, and the error shown
    ([None] when the browser is redirected). *)
Definition handleShopifyCheckout (user : option UserId) (st : St) (r : Remote) (s : Shop)
  : list ShopCall * option string :=
  let (fail1, s1) := shop_pop s in
  if fail1 then ([FetchProduct], Some "product fetch failed") else
  match product_variants s1 with
  | None | Some [] => ([FetchProduct], Some "Product not found")
  | Some (v :: _) =>
      let (fail2, s2) := shop_pop s1 in
      if fail2 then ([FetchProduct; CreateCheckout], Some "checkout create failed") else
      let lines :=
        match user with
        | Some u => Some (lines_of_rows (checkoutItems (fst (remote_select u r))))
        | None => match getLocalCart st with
                  | (Ok l, _) => Some (lines_of_local l)
                  | (Thrown, _) => None
                  end
        end in
      match lines with
      | None => ([FetchProduct; CreateCheckout], Some "cart read failed")
      | Some ls =>
          let (cs, e) := add_lines (checkout_id s2) v (web_url s2) ls s2 in
          (FetchProduct :: CreateCheckout :: cs, e)
      end
  end.

(** ** Further code: the older cart store kept at the end of [part_000]

    It probes [localStorage] with [isStorageAvailable] (a write and removal
    of a test key, which does not touch the ['cart'] key), has no
    [sessionStorage] step, and calls [crypto.randomUUID()] without a
    fallback. *)
Module OldCartStorage.

(** [localStorage.setItem(test, test); localStorage.removeItem(test)]:
    the attempted writes are recorded; a throwing [setItem] (storage
    disabled or full) makes it return [false]. *)
Definition isStorageAvailable : M bool :=
  emit LsTestSet ;;;
  fun st => match localStorage st with
            | Broken | ReadOnly _ => (Ok false, st)
            | Avail _ => (emit LsTestRemove ;;; ret true) st
            end.

Definition getLocalCart : M (list LocalCartItem) :=
  ok <- isStorageAvailable ;;
  if negb ok then get_memoryCart
  else try_catch (c <- getItem LocalArea ;; ret (parse_or_empty c)) get_memoryCart.

Definition saveLocalCart (items : list LocalCartItem) : M unit :=
  set_memoryCart items ;;;
  ok <- isStorageAvailable ;;
  if negb ok then ret tt
  else try_catch (setItem LocalArea items)
                 (emit (Warn "Unable to save cart to localStorage")).

Definition addToLocalCart (item : NewCartItem) : M unit :=
  cart <- getLocalCart ;;
  match find (same_line item) cart with
  | Some existingItem =>
      saveLocalCart (update_first (same_line item)
                       (fun i => with_quantity (quantity i + n_quantity item) i) cart)
  | None =>
      id <- randomUUID ;;
      saveLocalCart (cart ++ [attach_id item id])
  end.

End OldCartStorage.


(** ** Lemmas on the local store *)

(** The cart [getLocalCart] reads in a given state. *)
Definition cart_of (st : St) : list LocalCartItem :=
  match localStorage st with
  | Avail v | ReadOnly v => parse_or_empty v
  | Broken =>
      match sessionStorage st with
      | Avail v | ReadOnly v => parse_or_empty v
      | Broken => memoryCart st
      end
  end.

Definition slot_kind (s : Slot) : nat :=
  match s with Broken => 0 | Avail _ => 1 | ReadOnly _ => 2 end%nat.

(** Which accesses of the two storage areas throw. *)
Definition shape (st : St) : nat * nat :=
  (slot_kind (localStorage st), slot_kind (sessionStorage st)).

(** Whether the place [getLocalCart] reads from is the place
    [saveLocalCart] writes to: localStorage works; or every access to it
    throws and sessionStorage works, or throws too and [memoryCart] is
    used.  It fails when the area read from rejects writes. *)
Definition writes_readable (st : St) : bool :=
  match localStorage st with
  | Avail _ => true
  | ReadOnly _ => false
  | Broken => match sessionStorage st with ReadOnly _ => false | _ => true end
  end.

Lemma getLocalCart_spec st : getLocalCart st = (Ok (cart_of st), st).
Proof.
  unfold getLocalCart, try_catch, bind, getItem, get_memoryCart, ret, cart_of; simpl.
  destruct (localStorage st); try destruct (sessionStorage st); reflexivity.
Qed.

Lemma writes_readable_shape st st' :
  shape st' = shape st -> writes_readable st' = writes_readable st.
Proof.
  unfold shape, writes_readable.
  destruct (localStorage st), (localStorage st'), (sessionStorage st), (sessionStorage st');
    simpl; intro H; inversion H; reflexivity.
Qed.

(** [saveLocalCart] always sets [memoryCart]; the cart read back is the
    saved one exactly when the area read from accepts writes, and the old
    one otherwise. *)
Lemma saveLocalCart_spec items st :
  exists st', saveLocalCart items st = (Ok tt, st') /\
    cart_of st' = (if writes_readable st then items else cart_of st) /\
    shape st' = shape st /\ memoryCart st' = items /\
    crypto_ok st' = crypto_ok st /\ seed st' = seed st.
Proof.
  unfold saveLocalCart, try_catch, bind, set_memoryCart, setItem, emit, put_slot, slot_of;
    simpl.
  destruct (localStorage st) eqn:L; destruct (sessionStorage st) eqn:S;
    eexists; (split; [reflexivity|]); unfold cart_of, shape, writes_readable; simpl;
    rewrite ?L, ?S; repeat split; reflexivity.
Qed.

Lemma generateUUID_spec st :
  generateUUID st =
    (Ok (uuid_for (crypto_ok st) (seed st)),
     {| localStorage := localStorage st; sessionStorage := sessionStorage st;
        memoryCart := memoryCart st; crypto_ok := crypto_ok st;
        seed := S (seed st); calls := calls st |}).
Proof.
  unfold generateUUID, try_catch, randomUUID, fallbackId, uuid_for.
  destruct (crypto_ok st) eqn:C; rewrite ?C; reflexivity.
Qed.

Lemma find_existsb {A} (p : A -> bool) l :
  existsb p l = match find p l with Some _ => true | None => false end.
Proof. induction l as [|x t IH]; simpl; [reflexivity|]. destruct (p x); auto. Qed.

Lemma addToLocalCart_spec item st :
  exists st', addToLocalCart item st = (Ok tt, st') /\
    cart_of st' = (if writes_readable st
                   then MemList.add (uuid_for (crypto_ok st) (seed st)) item (cart_of st)
                   else cart_of st) /\
    shape st' = shape st /\ crypto_ok st' = crypto_ok st /\
    seed st' = (if existsb (same_line item) (cart_of st) then seed st else S (seed st)).
Proof.
  unfold addToLocalCart, bind at 1. rewrite getLocalCart_spec.
  unfold MemList.add. rewrite find_existsb.
  destruct (find (same_line item) (cart_of st)) eqn:F.
  - destruct (saveLocalCart_spec
                (update_first (same_line item)
                   (fun i => with_quantity (quantity i + n_quantity item) i) (cart_of st)) st)
      as (st' & E & C & Sh & _ & Cr & Se).
    exists st'. rewrite E. auto.
  - unfold bind at 1. rewrite generateUUID_spec.
    match goal with
    | |- context [saveLocalCart ?l ?s] =>
        destruct (saveLocalCart_spec l s) as (st' & E & C & Sh & _ & Cr & Se)
    end.
    exists st'. rewrite E. split; [reflexivity|]. split; [rewrite C; reflexivity|].
    repeat split; auto.
Qed.

Lemma removeFromLocalCart_spec id st :
  exists st', removeFromLocalCart id st = (Ok tt, st') /\
    cart_of st' = (if writes_readable st then MemList.remove id (cart_of st) else cart_of st) /\
    shape st' = shape st /\ crypto_ok st' = crypto_ok st /\ seed st' = seed st.
Proof.
  unfold removeFromLocalCart, bind at 1. rewrite getLocalCart_spec.
  match goal with
  | |- context [saveLocalCart ?l ?s] =>
      destruct (saveLocalCart_spec l s) as (st' & E & C & Sh & _ & Cr & Se)
  end.
  exists st'. rewrite E. auto.
Qed.

Lemma update_first_none {A} (p : A -> bool) (f : A -> A) l :
  find p l = None -> update_first p f l = l.
Proof.
  induction l as [|x t IH]; simpl; [reflexivity|].
  destruct (p x); [discriminate|]. intro H. f_equal. exact (IH H).
Qed.

Lemma updateLocalCartQuantity_spec id q st :
  exists st', updateLocalCartQuantity id q st = (Ok tt, st') /\
    cart_of st' = (if writes_readable st then MemList.updateQuantity id q (cart_of st)
                   else cart_of st) /\
    shape st' = shape st /\ crypto_ok st' = crypto_ok st /\ seed st' = seed st.
Proof.
  unfold updateLocalCartQuantity, bind at 1. rewrite getLocalCart_spec.
  unfold MemList.updateQuantity.
  destruct (find (has_id id) (cart_of st)) eqn:F.
  - match goal with
    | |- context [saveLocalCart ?l ?s] =>
        destruct (saveLocalCart_spec l s) as (st' & E & C & Sh & _ & Cr & Se)
    end.
    exists st'. rewrite E. auto.
  - exists st. split; [reflexivity|]. repeat split; auto.
    rewrite update_first_none by exact F. destruct (writes_readable st); reflexivity.
Qed.

(** What [updateLocalCartQuantity] hands to [saveLocalCart] (and hence to
    [memoryCart]) when a line has the id. *)
Lemma updateLocalCartQuantity_saved id q st :
  existsb (has_id id) (cart_of st) = true ->
  memoryCart (snd (updateLocalCartQuantity id q st))
  = update_first (has_id id) (with_quantity q) (cart_of st).
Proof.
  intro H. unfold updateLocalCartQuantity, bind at 1. rewrite getLocalCart_spec.
  rewrite find_existsb in H. destruct (find (has_id id) (cart_of st)); [|discriminate].
  destruct (saveLocalCart_spec (update_first (has_id id) (with_quantity q) (cart_of st)) st)
    as (st' & E & _ & _ & M & _).
  rewrite E. exact M.
Qed.

Lemma clearLocalCart_spec st :
  exists st', clearLocalCart st = (Ok tt, st') /\
    cart_of st' = [] /\ memoryCart st' = [] /\
    shape st' = shape st /\ crypto_ok st' = crypto_ok st /\ seed st' = seed st.
Proof.
  unfold clearLocalCart, try_catch, bind, set_memoryCart, removeItem, emit, put_slot, slot_of;
    simpl.
  destruct (localStorage st) eqn:L; destruct (sessionStorage st) eqn:S;
    eexists; (split; [reflexivity|]); unfold cart_of, shape; simpl;
    rewrite ?L, ?S; repeat split; reflexivity.
Qed.

Ltac run_store_step IH Hw spec :=
  unfold bind at 1;
  let s1 := fresh "s1" in
  destruct spec as (s1 & E1 & C1 & Sh1 & Cr1 & Se1);
  rewrite Hw in C1;
  rewrite E1; unfold ret at 1;
  let st' := fresh "st'" in
  destruct (IH s1 (eq_trans (writes_readable_shape _ _ Sh1) Hw)) as (st' & E & C & Sh & Cr);
  unfold bind at 1; rewrite E;
  try rewrite C1 in *; try rewrite Cr1 in *; try rewrite Se1 in *;
  destruct (run_mem _ _ _ _) eqn:R;
  exists st'; simpl in *; repeat split; congruence.

(** When writes are read back, any sequence of store operations behaves as
    the same operations on a plain list. *)
Lemma run_store_spec os st :
  writes_readable st = true ->
  exists st',
    run_store os st = (Ok (fst (run_mem (crypto_ok st) os (seed st) (cart_of st))), st') /\
    cart_of st' = snd (run_mem (crypto_ok st) os (seed st) (cart_of st)) /\
    shape st' = shape st /\ crypto_ok st' = crypto_ok st.
Proof.
  revert st. induction os as [|o os IH]; intros st Hw.
  - exists st. auto.
  - destruct o as [|item|id|id q|]; simpl; unfold bind at 1; simpl.
    + unfold bind at 1. rewrite getLocalCart_spec. unfold ret at 1.
      destruct (IH st Hw) as (st' & E & C & Sh & Cr).
      unfold bind at 1. rewrite E.
      destruct (run_mem (crypto_ok st) os (seed st) (cart_of st)) eqn:R.
      exists st'. simpl in *. auto.
    + run_store_step IH Hw (addToLocalCart_spec item st).
    + run_store_step IH Hw (removeFromLocalCart_spec id st).
    + run_store_step IH Hw (updateLocalCartQuantity_spec id q st).
    + unfold bind at 1.
      destruct (clearLocalCart_spec st) as (s1 & E1 & C1 & _ & Sh1 & Cr1 & Se1).
      rewrite E1. unfold ret at 1.
      destruct (IH s1 (eq_trans (writes_readable_shape _ _ Sh1) Hw)) as (st' & E & C & Sh & Cr).
      unfold bind at 1. rewrite E.
      try rewrite C1 in *; try rewrite Cr1 in *; try rewrite Se1 in *.
      destruct (run_mem _ os _ _) eqn:R.
      exists st'. simpl in *. repeat split; congruence.
Qed.

Lemma key_eqb_eq a b : key_eqb a b = true <-> a = b.
Proof.
  destruct a as [a1 a2], b as [b1 b2]; unfold key_eqb; simpl.
  rewrite andb_true_iff, !String.eqb_eq. split; [intros [-> ->]|intros H; inversion H]; auto.
Qed.

Lemma key_eqb_sym a b : key_eqb a b = key_eqb b a.
Proof. unfold key_eqb. rewrite (String.eqb_sym (fst a)), (String.eqb_sym (snd a)). reflexivity. Qed.

Lemma same_line_key item i : same_line item i = key_eqb (line_key i) (new_key item).
Proof. reflexivity. Qed.

Lemma mem_add_hit f item x t :
  same_line item x = true ->
  MemList.add f item (x :: t) = with_quantity (quantity x + n_quantity item) x :: t.
Proof. intro H. unfold MemList.add. simpl. rewrite H. reflexivity. Qed.

Lemma mem_add_miss f item x t :
  same_line item x = false ->
  MemList.add f item (x :: t) = x :: MemList.add f item t.
Proof.
  intro H. unfold MemList.add. simpl. rewrite H. simpl.
  destruct (existsb (same_line item) t); reflexivity.
Qed.

Lemma keys_mem_add f item l :
  map line_key (MemList.add f item l) =
  (map line_key l ++ (if existsb (same_line item) l then [] else [new_key item]))%list.
Proof.
  induction l as [|x t IH].
  - reflexivity.
  - destruct (same_line item x) eqn:H.
    + rewrite mem_add_hit by exact H. simpl. rewrite H, app_nil_r. reflexivity.
    + rewrite mem_add_miss by exact H. simpl. rewrite H, IH. reflexivity.
Qed.

Lemma existsb_false_not_in item l :
  existsb (same_line item) l = false -> ~ In (new_key item) (map line_key l).
Proof.
  induction l as [|x t IH]; simpl; [tauto|].
  rewrite orb_false_iff. intros [H1 H2] [H|H]; [|exact (IH H2 H)].
  rewrite same_line_key, H in H1.
  rewrite (proj2 (key_eqb_eq _ _) eq_refl) in H1. discriminate.
Qed.

Lemma existsb_true_in item l :
  existsb (same_line item) l = true -> In (new_key item) (map line_key l).
Proof.
  induction l as [|x t IH]; simpl; [discriminate|].
  rewrite orb_true_iff. intros [H|H]; [left|right; auto].
  rewrite same_line_key in H. apply key_eqb_eq in H. exact H.
Qed.

Lemma qty_mem_add f item l k :
  qty_of k (MemList.add f item l) =
  (qty_of k l + (if key_eqb (new_key item) k then n_quantity item else 0))%Z.
Proof.
  induction l as [|x t IH].
  - unfold MemList.add, qty_of. simpl. unfold line_key, new_key. simpl.
    destruct (key_eqb _ k); reflexivity.
  - destruct (same_line item x) eqn:H.
    + rewrite mem_add_hit by exact H.
      rewrite same_line_key in H. apply key_eqb_eq in H.
      unfold qty_of. simpl.
      change (line_key (with_quantity (quantity x + n_quantity item) x)) with (line_key x).
      rewrite H. destruct (key_eqb (new_key item) k); simpl; lia.
    + rewrite mem_add_miss by exact H.
      unfold qty_of in *. simpl.
      destruct (key_eqb (line_key x) k) eqn:Hx; [|exact IH].
      apply key_eqb_eq in Hx. subst k.
      rewrite same_line_key, key_eqb_sym in H. rewrite H. lia.
Qed.

Lemma NoDup_snoc {A} (l : list A) a : NoDup l -> ~ In a l -> NoDup (l ++ [a]).
Proof.
  induction l as [|x t IH]; simpl; intros Hn Hi.
  - constructor; [tauto|constructor].
  - inversion Hn; subst. constructor.
    + rewrite in_app_iff. simpl. intuition.
    + apply IH; auto.
Qed.

(** Scenario A of the spec. *)
Example scenario_A :
  cart_of (snd (add_all [sweatpants "M" 1; sweatpants "M" 2] (st_local [])))
  = [line "uuid-0" "M" 3].
Proof. reflexivity. Qed.

(** ** Claims about the Local Cart Store *)

Lemma add_all_dedup items st :
  writes_readable st = true ->
  NoDup (map line_key (cart_of st)) ->
  exists st', add_all items st = (Ok tt, st') /\
    NoDup (map line_key (cart_of st')) /\
    (forall k, qty_of k (cart_of st') = (qty_of k (cart_of st) + added_qty k items)%Z) /\
    (forall k, In k (map line_key (cart_of st')) <->
               In k (map line_key (cart_of st)) \/ In k (map new_key items)).
Proof.
  revert st. induction items as [|it rest IH]; intros st Hw Hnd.
  - exists st. simpl. repeat split; auto.
    + intro k. unfold added_qty. simpl. lia.
    + intros [H|H]; [exact H|contradiction].
  - simpl. unfold bind at 1.
    destruct (addToLocalCart_spec it st) as (s1 & E1 & C1 & Sh1 & _ & _).
    rewrite Hw in C1. rewrite E1.
    assert (Hnd1 : NoDup (map line_key (cart_of s1))).
    { rewrite C1, keys_mem_add.
      destruct (existsb (same_line it) (cart_of st)) eqn:Ex.
      - rewrite app_nil_r. exact Hnd.
      - apply NoDup_snoc; [exact Hnd|]. apply existsb_false_not_in. exact Ex. }
    destruct (IH s1 (eq_trans (writes_readable_shape _ _ Sh1) Hw) Hnd1)
      as (st' & E & Hnd' & Hq & Hin).
    exists st'. repeat split; auto.
    + intro k. rewrite Hq, C1, qty_mem_add. unfold added_qty. simpl.
      destruct (key_eqb (new_key it) k); simpl; lia.
    + intro H. apply Hin in H. rewrite C1, keys_mem_add, in_app_iff in H.
      simpl. destruct H as [[H|H]|H]; auto.
      destruct (existsb (same_line it) (cart_of st)); simpl in H; [contradiction|].
      destruct H as [H|[]]. right. left. exact H.
    + intro H. apply Hin. rewrite C1, keys_mem_add, in_app_iff.
      simpl in H. destruct H as [H|[H|H]]; auto.
      subst k. destruct (existsb (same_line it) (cart_of st)) eqn:Ex.
      * left. left. apply existsb_true_in. exact Ex.
      * left. right. left. reflexivity.
Qed.

(** A signed-in add-to-cart whose insert succeeds appends one row. *)
Lemma handleAddToCart_remote sz w u :
  user w = Some u -> hd false (net (remote w)) = false ->
  exists row, rows (remote (handleAddToCart sz w)) = (rows (remote w) ++ [row])%list /\
    row_key row = ("SWEATPANTS", sz) /\ user_id row = u /\ r_quantity row = 1%Z.
Proof.
  intros Hu Hn. unfold handleAddToCart. rewrite Hu.
  unfold remote_insert, pop_net.
  destruct (net (remote w)) as [|b bs]; simpl in Hn; [|subst b]; simpl;
    eexists; repeat split.
Qed.

(** C3 (as amended).  Local cart: when the area the cart is read from
    accepts writes, any sequence of [addToLocalCart] calls on a cart with at
    most one line per [(productName, size)] keeps at most one line per
    pair; each pair's quantity grows by the sum of the quantities added for
    it, and the pairs present are the earlier ones plus the added ones.
    Remote cart: every signed-in add-to-cart whose insert succeeds appends
    a new row for the user with that pair, whatever rows already exist, so
    lines are not merged. *)
Theorem local_add_dedup items st :
  writes_readable st = true ->
  NoDup (map line_key (cart_of st)) ->
  (exists st', add_all items st = (Ok tt, st') /\
    NoDup (map line_key (cart_of st')) /\
    (forall k, qty_of k (cart_of st') = (qty_of k (cart_of st) + added_qty k items)%Z) /\
    (forall k, In k (map line_key (cart_of st')) <->
               In k (map line_key (cart_of st)) \/ In k (map new_key items))) /\
  (forall sz w u, user w = Some u -> hd false (net (remote w)) = false ->
   exists row, rows (remote (handleAddToCart sz w)) = (rows (remote w) ++ [row])%list /\
     row_key row = ("SWEATPANTS", sz) /\ user_id row = u /\ r_quantity row = 1%Z).
Proof.
  intros Hw Hnd. split.
  - exact (add_all_dedup items st Hw Hnd).
  - intros sz w u Hu Hn. exact (handleAddToCart_remote sz w u Hu Hn).
Qed.

Lemma local_add_dedup_witness :
  writes_readable (st_local []) = true /\
  NoDup (map line_key (cart_of (st_local []))) /\
  exists st', add_all [sweatpants "M" 1; sweatpants "M" 2; sweatpants "L" 1] (st_local [])
              = (Ok tt, st') /\
    NoDup (map line_key (cart_of st')) /\
    (forall k, qty_of k (cart_of st') =
               (qty_of k (cart_of (st_local [])) +
                added_qty k [sweatpants "M" 1; sweatpants "M" 2; sweatpants "L" 1])%Z) /\
    (forall k, In k (map line_key (cart_of st')) <->
               In k (map line_key (cart_of (st_local []))) \/
               In k (map new_key [sweatpants "M" 1; sweatpants "M" 2; sweatpants "L" 1])).
Proof.
  split; [reflexivity|]. split; [simpl; constructor|].
  apply (local_add_dedup [sweatpants "M" 1; sweatpants "M" 2; sweatpants "L" 1] (st_local []));
    [reflexivity|simpl; constructor].
Defined.

(** C3 counterexample: the remote cart does not merge lines.  Two
    authenticated add-to-cart clicks with the same size leave two rows with
    the same [(productName, size)]. *)
Lemma remote_add_duplicates :
  ~ NoDup (map row_key (rows (remote
      (handleAddToCart "M" (handleAddToCart "M" (world (Some "u1") (st_local []) empty_remote)))))).
Proof.
  vm_compute. intro H. inversion H as [|x l Hnot _]. apply Hnot. left. reflexivity.
Qed.

(** C4 counterexample: the store function [updateLocalCartQuantity] has no
    floor.  On a cart whose line ["a"] has quantity 2, calling it with
    quantity 0 sets that line's quantity to 0. *)
Lemma update_quantity_zero_not_ignored :
  cart_of (snd (updateLocalCartQuantity "a" 0 (st_local [line "a" "M" 2])))
  = [line "a" "M" 0] /\
  cart_of (st_local [line "a" "M" 2]) = [line "a" "M" 2].
Proof. split; reflexivity. Qed.

(** C4 (as amended): the floor on quantities is enforced by the cart view.
    [updateLocalQuantity localId q] with [q < 1] returns before calling the
    store: the state (cart, storage areas, recorded writes) is unchanged.
    The store function [updateLocalCartQuantity] itself has no floor: when
    a line has the id, it saves the cart with that line's quantity set to
    [q'] whatever [q'] is ([saveLocalCart] puts the saved list in
    [memoryCart]), and the cart read back shows it whenever the area read
    from accepts writes. *)
Theorem quantity_floor_in_view (lid : string) (q : Z) st :
  (q < 1)%Z ->
  updateLocalQuantity lid q st = (Ok None, st) /\
  forall q', exists st', updateLocalCartQuantity lid q' st = (Ok tt, st') /\
    (existsb (has_id lid) (cart_of st) = true ->
     memoryCart st' = update_first (has_id lid) (with_quantity q') (cart_of st)) /\
    (writes_readable st = true ->
     cart_of st' = update_first (has_id lid) (with_quantity q') (cart_of st)).
Proof.
  intro Hq. split.
  - unfold updateLocalQuantity. replace (Z.ltb q 1) with true by (symmetry; apply Z.ltb_lt; exact Hq).
    reflexivity.
  - intro q'. destruct (updateLocalCartQuantity_spec lid q' st) as (st' & E & C & _).
    exists st'. split; [exact E|]. split.
    + intro Hx. pose proof (updateLocalCartQuantity_saved lid q' st Hx) as M.
      rewrite E in M. exact M.
    + intro Hw. rewrite Hw in C. exact C.
Qed.

Lemma quantity_floor_in_view_witness :
  (0 < 1)%Z /\
  (updateLocalQuantity "a" 0 (st_local [line "a" "M" 2]) = (Ok None, st_local [line "a" "M" 2]) /\
   forall q', exists st', updateLocalCartQuantity "a" q' (st_local [line "a" "M" 2]) = (Ok tt, st') /\
     (existsb (has_id "a") (cart_of (st_local [line "a" "M" 2])) = true ->
      memoryCart st' = update_first (has_id "a") (with_quantity q') (cart_of (st_local [line "a" "M" 2]))) /\
     (writes_readable (st_local [line "a" "M" 2]) = true ->
      cart_of st' = update_first (has_id "a") (with_quantity q') (cart_of (st_local [line "a" "M" 2])))).
Proof.
  split; [reflexivity|].
  apply (quantity_floor_in_view "a" 0 (st_local [line "a" "M" 2])). reflexivity.
Defined.

(** C7: when every access to localStorage and to sessionStorage throws, any
    sequence of list/add/remove/updateQuantity/clear calls returns normally
    (no exception reaches the caller), the lists read back are exactly those
    of the same operations on the plain in-memory list [memoryCart], and the
    module variable ends equal to that list. *)
Theorem fallback_transparent os st :
  localStorage st = Broken -> sessionStorage st = Broken ->
  exists st',
    run_store os st = (Ok (fst (run_mem (crypto_ok st) os (seed st) (memoryCart st))), st') /\
    memoryCart st' = snd (run_mem (crypto_ok st) os (seed st) (memoryCart st)) /\
    localStorage st' = Broken /\ sessionStorage st' = Broken.
Proof.
  intros HL HS.
  assert (Hw : writes_readable st = true) by (unfold writes_readable; rewrite HL, HS; reflexivity).
  destruct (run_store_spec os st Hw) as (st' & E & C & Sh & _).
  assert (Hc : cart_of st = memoryCart st) by (unfold cart_of; rewrite HL, HS; reflexivity).
  rewrite Hc in E, C.
  unfold shape in Sh. rewrite HL, HS in Sh.
  exists st'.
  destruct (localStorage st') eqn:L'; cbn in Sh; try discriminate Sh.
  destruct (sessionStorage st') eqn:S'; cbn in Sh; try discriminate Sh.
  repeat split; auto.
  rewrite <- C. unfold cart_of. rewrite L', S'. reflexivity.
Qed.

Lemma fallback_transparent_witness :
  localStorage (st_memory []) = Broken /\ sessionStorage (st_memory []) = Broken /\
  exists st',
    run_store [OpAdd (sweatpants "M" 1); OpAdd (sweatpants "M" 2); OpList;
               OpUpdate "t-0" 5; OpRemove "t-0"; OpList; OpClear] (st_memory []) =
      (Ok (fst (run_mem false [OpAdd (sweatpants "M" 1); OpAdd (sweatpants "M" 2); OpList;
                               OpUpdate "t-0" 5; OpRemove "t-0"; OpList; OpClear] 0 [])), st') /\
    memoryCart st' = snd (run_mem false [OpAdd (sweatpants "M" 1); OpAdd (sweatpants "M" 2); OpList;
                               OpUpdate "t-0" 5; OpRemove "t-0"; OpList; OpClear] 0 []) /\
    localStorage st' = Broken /\ sessionStorage st' = Broken.
Proof.
  split; [reflexivity|]. split; [reflexivity|].
  apply (fallback_transparent
           [OpAdd (sweatpants "M" 1); OpAdd (sweatpants "M" 2); OpList;
            OpUpdate "t-0" 5; OpRemove "t-0"; OpList; OpClear] (st_memory []));
    reflexivity.
Defined.

Lemma update_first_app {A} (p : A -> bool) (f : A -> A) pre x post :
  (forall y, In y pre -> p y = false) -> p x = true ->
  update_first p f (pre ++ x :: post) = (pre ++ f x :: post)%list.
Proof.
  intros Hpre Hx. induction pre as [|y t IH]; simpl.
  - rewrite Hx. reflexivity.
  - rewrite (Hpre y (or_introl eq_refl)). f_equal.
    apply IH. intros z Hz. apply Hpre. right. exact Hz.
Qed.

(** C10: [updateLocalCartQuantity localId q] with no line of that id leaves
    the whole state unchanged (in particular [saveLocalCart] writes
    nothing).  With a matching line it saves the cart with the first such
    line at quantity [q] and every other line unchanged in its position;
    the cart read back keeps every other line and position too, and shows
    the new quantity whenever the area read from accepts writes (otherwise
    it is the cart as before). *)
Theorem update_quantity_frame (lid : string) (q : Z) st :
  ((forall i, In i (cart_of st) -> localId i <> lid) ->
   updateLocalCartQuantity lid q st = (Ok tt, st)) /\
  (forall pre x post,
     cart_of st = (pre ++ x :: post)%list ->
     localId x = lid ->
     (forall y, In y pre -> localId y <> lid) ->
     exists st', updateLocalCartQuantity lid q st = (Ok tt, st') /\
       memoryCart st' = (pre ++ with_quantity q x :: post)%list /\
       exists y, cart_of st' = (pre ++ y :: post)%list /\
         (writes_readable st = true -> y = with_quantity q x) /\
         (writes_readable st = false -> y = x)).
Proof.
  split.
  - intro Hno. unfold updateLocalCartQuantity, bind. rewrite getLocalCart_spec.
    replace (find (has_id lid) (cart_of st)) with (@None LocalCartItem); [reflexivity|].
    symmetry. induction (cart_of st) as [|y t IH]; [reflexivity|]. simpl.
    unfold has_id at 1. destruct (String.eqb (localId y) lid) eqn:E.
    + apply String.eqb_eq in E. exfalso. apply (Hno y); [left; reflexivity|exact E].
    + apply IH. intros i Hi. apply Hno. right. exact Hi.
  - intros pre x post Hc Hx Hpre.
    assert (Hu : update_first (has_id lid) (with_quantity q) (cart_of st)
                 = (pre ++ with_quantity q x :: post)%list).
    { rewrite Hc. apply update_first_app.
      + intros y Hy. unfold has_id. apply String.eqb_neq. exact (Hpre y Hy).
      + unfold has_id. rewrite Hx. apply String.eqb_refl. }
    assert (Hex : existsb (has_id lid) (cart_of st) = true).
    { rewrite Hc, existsb_app. simpl. unfold has_id at 2. rewrite Hx, String.eqb_refl.
      rewrite orb_true_r. reflexivity. }
    pose proof (updateLocalCartQuantity_saved lid q st Hex) as M.
    destruct (updateLocalCartQuantity_spec lid q st) as (st' & E & C & _).
    exists st'. split; [exact E|]. rewrite E in M. simpl in M. split; [rewrite M; exact Hu|].
    unfold MemList.updateQuantity in C.
    destruct (writes_readable st).
    + exists (with_quantity q x). split; [rewrite C; exact Hu|]. split; [reflexivity|discriminate].
    + exists x. split; [rewrite C; exact Hc|]. split; [discriminate|reflexivity].
Qed.

Lemma update_quantity_frame_witness :
  updateLocalCartQuantity "c" 4 (st_local [line "a" "M" 1; line "b" "L" 2])
  = (Ok tt, st_local [line "a" "M" 1; line "b" "L" 2]) /\
  (exists st', updateLocalCartQuantity "b" 4 (st_local [line "a" "M" 1; line "b" "L" 2])
               = (Ok tt, st') /\
     memoryCart st' = [line "a" "M" 1; with_quantity 4 (line "b" "L" 2)] /\
     exists y, cart_of st' = [line "a" "M" 1; y] /\
       (writes_readable (st_local [line "a" "M" 1; line "b" "L" 2]) = true ->
        y = with_quantity 4 (line "b" "L" 2)) /\
       (writes_readable (st_local [line "a" "M" 1; line "b" "L" 2]) = false -> y = line "b" "L" 2)).
Proof.
  destruct (update_quantity_frame "c" 4 (st_local [line "a" "M" 1; line "b" "L" 2])) as [H1 _].
  destruct (update_quantity_frame "b" 4 (st_local [line "a" "M" 1; line "b" "L" 2])) as [_ H2].
  split.
  - apply H1. intros i Hi. simpl in Hi.
    destruct Hi as [Hi|[Hi|[]]]; subst i; simpl; discriminate.
  - apply (H2 [line "a" "M" 1] (line "b" "L" 2) []).
    + reflexivity.
    + reflexivity.
    + intros y [Hy|[]]. subst y. simpl. discriminate.
Defined.

(** ** Claims about the guest-cart merge *)

Lemma insert_all_spec u items w :
  exists added,
    rows (remote (insert_all u items w)) = (rows (remote w) ++ added)%list /\
    map row_req added = map (insert_of u) (kept (net (remote w)) items) /\
    trace (insert_all u items w) =
      (trace w ++ map (fun i => CInsert (insert_of u i)) items)%list /\
    store (insert_all u items w) = store w /\
    user (insert_all u items w) = user w /\
    captured (insert_all u items w) = captured w.
Proof.
  revert w. induction items as [|it t IH]; intro w.
  - exists []. simpl. rewrite !app_nil_r. repeat split.
  - simpl. unfold remote_insert, pop_net.
    destruct (net (remote w)) as [|b bs] eqn:N; [|destruct b].
    + match goal with |- context [insert_all u t ?w1] => destruct (IH w1) as (ad & R & M & T & S & U & C) end.
      exists ({| id := next_row (remote w); user_id := u; r_product_name := product_name it;
                 r_product_price := product_price it; r_quantity := quantity it;
                 r_size := size it |} :: ad).
      rewrite R, T, S, U, C. simpl in M. rewrite ?N in M. simpl. rewrite M, <- !app_assoc. repeat split.
    + match goal with |- context [insert_all u t ?w1] => destruct (IH w1) as (ad & R & M & T & S & U & C) end.
      exists ad. rewrite R, T, S, U, C. simpl in M. simpl. rewrite M, <- !app_assoc. repeat split.
    + match goal with |- context [insert_all u t ?w1] => destruct (IH w1) as (ad & R & M & T & S & U & C) end.
      exists ({| id := next_row (remote w); user_id := u; r_product_name := product_name it;
                 r_product_price := product_price it; r_quantity := quantity it;
                 r_size := size it |} :: ad).
      rewrite R, T, S, U, C. simpl in M. simpl. rewrite M, <- !app_assoc. repeat split.
Qed.

(** The callback on a login seen from a guest closure. *)
Lemma cb_guest_spec u w :
  captured w = None ->
  user (onAuthStateChange_cb (Some u) w) = Some u /\
  captured (onAuthStateChange_cb (Some u) w) = None /\
  (cart_of (store w) = [] -> onAuthStateChange_cb (Some u) w = set_user (Some u) w) /\
  (cart_of (store w) <> [] ->
   exists added,
     rows (remote (onAuthStateChange_cb (Some u) w)) = (rows (remote w) ++ added)%list /\
     map row_req added = map (insert_of u) (kept (net (remote w)) (cart_of (store w))) /\
     trace (onAuthStateChange_cb (Some u) w) =
       (trace w ++ map (fun i => CInsert (insert_of u i)) (cart_of (store w)) ++ [CClearLocal])%list /\
     cart_of (store (onAuthStateChange_cb (Some u) w)) = []).
Proof.
  intro Hc. unfold onAuthStateChange_cb. rewrite Hc.
  change (store (set_user (Some u) w)) with (store w).
  rewrite getLocalCart_spec.
  destruct (cart_of (store w)) as [|x t] eqn:Ec.
  - simpl. split; [reflexivity|]. split; [exact Hc|]. split; [intros _; reflexivity|].
    intros H; exfalso; apply H; reflexivity.
  - cbv beta iota. replace (Nat.ltb 0 (length (x :: t))) with true by reflexivity.
    destruct (insert_all_spec u (x :: t) (set_store (store w) (set_user (Some u) w)))
      as (ad & R & M & T & S & U & C).
    remember (insert_all u (x :: t) (set_store (store w) (set_user (Some u) w))) as w3 eqn:Hw3.
    destruct (clearLocalCart_spec (store w3)) as (st4 & E4 & C4 & _).
    rewrite E4. simpl. simpl in R, M, T, U, C. rewrite U, C.
    split; [reflexivity|]. split; [exact Hc|]. split; [discriminate|].
    intros _. exists ad. rewrite R, M, T, <- app_assoc.
    repeat split. exact C4.
Qed.

(** A login seen from a closure that already holds a user. *)
Lemma deliver_authenticated u' w p :
  captured w = Some p ->
  deliver (Some u') w = set_captured (Some u') (set_user (Some u') w).
Proof. intro Hc. unfold deliver, onAuthStateChange_cb. rewrite Hc. reflexivity. Qed.

Lemma deliver_all_authenticated us w p :
  captured w = Some p ->
  store (deliver_all (map Some us) w) = store w /\
  remote (deliver_all (map Some us) w) = remote w /\
  trace (deliver_all (map Some us) w) = trace w.
Proof.
  revert w p. induction us as [|u' us IH]; intros w p Hc; simpl; [auto|].
  rewrite (deliver_authenticated u' w p Hc).
  destruct (IH (set_captured (Some u') (set_user (Some u') w)) u' eq_refl) as (S & R & T).
  rewrite S, R, T. auto.
Qed.

(** C1: on a login delivered to a callback whose captured user is [null],
    a non-empty local cart yields one insert call per local line, in the
    list's order, each carrying the line's [product_name], [product_price],
    [quantity] and [size] under the new user id (an [InsertReq] has no
    [localId]), followed by one [clearLocalCart] call, after which the
    local cart reads empty; an empty local cart yields no call at all and
    the stores are untouched. *)
Theorem guest_login_merge u w :
  captured w = None ->
  match cart_of (store w) with
  | [] => trace (onAuthStateChange_cb (Some u) w) = trace w /\
          store (onAuthStateChange_cb (Some u) w) = store w /\
          remote (onAuthStateChange_cb (Some u) w) = remote w
  | items =>
      trace (onAuthStateChange_cb (Some u) w) =
        (trace w ++ map (fun i => CInsert (insert_of u i)) items ++ [CClearLocal])%list /\
      cart_of (store (onAuthStateChange_cb (Some u) w)) = []
  end.
Proof.
  intro Hc. destruct (cb_guest_spec u w Hc) as (_ & _ & Hnil & Hcons).
  destruct (cart_of (store w)) as [|x t] eqn:E.
  - rewrite (Hnil eq_refl). repeat split.
  - destruct (Hcons ltac:(discriminate)) as (ad & _ & _ & T & C).
    split; [exact T|exact C].
Qed.

Lemma guest_login_merge_witness :
  captured (world None (st_local [line "a" "M" 1; line "b" "L" 2]) empty_remote) = None /\
  trace (onAuthStateChange_cb (Some "u1")
           (world None (st_local [line "a" "M" 1; line "b" "L" 2]) empty_remote)) =
    [CInsert (insert_of "u1" (line "a" "M" 1)); CInsert (insert_of "u1" (line "b" "L" 2));
     CClearLocal] /\
  cart_of (store (onAuthStateChange_cb (Some "u1")
           (world None (st_local [line "a" "M" 1; line "b" "L" 2]) empty_remote))) = [].
Proof.
  split; [reflexivity|].
  exact (guest_login_merge "u1" (world None (st_local [line "a" "M" 1; line "b" "L" 2]) empty_remote)
           eq_refl).
Defined.

(** C2: starting from a guest session (state and callback both [null]),
    the first login [u] issues one insert per local line and one clear when
    the cart is non-empty (nothing when it is empty) and leaves the local
    cart empty; any number of further authenticated transitions (token
    refreshes, delivered after the re-render that re-subscribed the
    callback) change neither store and make no further call. *)
Theorem merge_once u us st r :
  trace (deliver (Some u) (world None st r)) =
    match cart_of st with
    | [] => []
    | items => (map (fun i => CInsert (insert_of u i)) items ++ [CClearLocal])%list
    end /\
  cart_of (store (deliver (Some u) (world None st r))) = [] /\
  trace (deliver_all (map Some us) (deliver (Some u) (world None st r))) =
    trace (deliver (Some u) (world None st r)) /\
  store (deliver_all (map Some us) (deliver (Some u) (world None st r))) =
    store (deliver (Some u) (world None st r)) /\
  remote (deliver_all (map Some us) (deliver (Some u) (world None st r))) =
    remote (deliver (Some u) (world None st r)).
Proof.
  destruct (cb_guest_spec u (world None st r) eq_refl) as (U & _ & Hnil & Hcons).
  assert (Hcap : captured (deliver (Some u) (world None st r)) = Some u)
    by (unfold deliver, rerender; simpl; exact U).
  destruct (deliver_all_authenticated us _ _ Hcap) as (S & R & T).
  rewrite S, R, T.
  change (deliver (Some u) (world None st r))
    with (rerender (onAuthStateChange_cb (Some u) (world None st r))).
  unfold rerender, set_captured. cbn [trace store remote].
  change (store (world None st r)) with st in Hnil, Hcons.
  change (trace (world None st r)) with (@nil HandlerCall) in Hcons.
  destruct (cart_of st) as [|x t] eqn:E.
  - rewrite (Hnil eq_refl). repeat split. exact E.
  - destruct (Hcons ltac:(discriminate)) as (ad & _ & _ & Tr & C).
    repeat split; assumption.
Qed.

Example scenario_B :
  let w := deliver (Some "u1") (world None (st_local [line "a" "L" 2]) empty_remote) in
  map row_req (rows (remote w)) =
    [{| i_user_id := "u1"; i_product_name := "SWEATPANTS"; i_product_price := 6999 # 100;
        i_quantity := 2; i_size := "L" |}] /\
  cart_of (store w) = [].
Proof. split; reflexivity. Qed.

(** C5: during the merge every local line is attempted whatever the
    network does: a failed insert resolves with an [error] that is not
    inspected, the loop goes on, and the local cart is cleared at the end.
    The rows added remotely are exactly the lines whose insert succeeded;
    the others are gone from both carts. *)
Theorem merge_failures_swallowed u w :
  captured w = None ->
  cart_of (store w) <> [] ->
  cart_of (store (onAuthStateChange_cb (Some u) w)) = [] /\
  trace (onAuthStateChange_cb (Some u) w) =
    (trace w ++ map (fun i => CInsert (insert_of u i)) (cart_of (store w)) ++ [CClearLocal])%list /\
  exists added,
    rows (remote (onAuthStateChange_cb (Some u) w)) = (rows (remote w) ++ added)%list /\
    map row_req added = map (insert_of u) (kept (net (remote w)) (cart_of (store w))).
Proof.
  intros Hc Hne. destruct (cb_guest_spec u w Hc) as (_ & _ & _ & Hcons).
  destruct (Hcons Hne) as (ad & R & M & T & C).
  split; [exact C|]. split; [exact T|]. exists ad. split; assumption.
Qed.

Lemma merge_failures_swallowed_witness :
  captured (world None (st_local [line "a" "M" 1; line "b" "L" 2]) flaky_remote) = None /\
  cart_of (store (world None (st_local [line "a" "M" 1; line "b" "L" 2]) flaky_remote)) <> [] /\
  (cart_of (store (onAuthStateChange_cb (Some "u1")
     (world None (st_local [line "a" "M" 1; line "b" "L" 2]) flaky_remote))) = [] /\
   trace (onAuthStateChange_cb (Some "u1")
     (world None (st_local [line "a" "M" 1; line "b" "L" 2]) flaky_remote)) =
     ([] ++ map (fun i => CInsert (insert_of "u1" i)) [line "a" "M" 1; line "b" "L" 2]
         ++ [CClearLocal])%list /\
   exists added,
     rows (remote (onAuthStateChange_cb (Some "u1")
       (world None (st_local [line "a" "M" 1; line "b" "L" 2]) flaky_remote))) = ([] ++ added)%list /\
     map row_req added = map (insert_of "u1") [line "b" "L" 2]).
Proof.
  split; [reflexivity|]. split; [simpl; discriminate|].
  exact (merge_failures_swallowed "u1"
           (world None (st_local [line "a" "M" 1; line "b" "L" 2]) flaky_remote)
           eq_refl ltac:(simpl; discriminate)).
Defined.

(** ** Claims about remote reads *)

(** C6 counterexample: the cart view's [loadCart] does not turn a failed
    read into an empty list.  With one row already displayed, a read that
    fails in transport leaves that row displayed. *)
Lemma failed_read_keeps_items :
  loadCart (Some "u1") [sample_row]
    (fst (remote_select "u1" {| rows := [sample_row]; next_row := 8; net := [true] |}))
  = [sample_row].
Proof. reflexivity. Qed.

(** C6 (as amended): when the select fails in transport it resolves with an
    [error] and no [data]; the checkout then proceeds with no items
    ([data || []]), while the cart view's [loadCart] keeps the items it
    held before (the empty list only when nothing was loaded earlier). *)
Theorem failed_read_handling u r items :
  hd false (net r) = true ->
  error (fst (remote_select u r)) <> None /\
  checkoutItems (fst (remote_select u r)) = [] /\
  loadCart (Some u) items (fst (remote_select u r)) = items.
Proof.
  intro H. unfold remote_select, pop_net.
  destruct (net r) as [|b bs]; simpl in H; [discriminate|]. subst b.
  simpl. repeat split. discriminate.
Qed.

Lemma failed_read_handling_witness :
  hd false (net flaky_remote) = true /\
  error (fst (remote_select "u1" flaky_remote)) <> None /\
  checkoutItems (fst (remote_select "u1" flaky_remote)) = [] /\
  loadCart (Some "u1") [sample_row] (fst (remote_select "u1" flaky_remote)) = [sample_row].
Proof.
  split; [reflexivity|]. apply (failed_read_handling "u1" flaky_remote [sample_row]). reflexivity.
Defined.

(** ** Claims about the size recommendation *)

(** C8: Scenario C, waist 33 and inseam 30 give [M]. *)
Theorem recommended_33_30 : calculateRecommendedSize 33 30 = "M".
Proof. vm_compute. reflexivity. Qed.

(** The chart strings parse to the numbers of [chart_numbers]. *)
Lemma first_fitting_chart w i :
  first_fitting w i sizeChart = spec_recommended w i chart_numbers.
Proof. reflexivity. Qed.

(** C9: both copies of the recommendation return the first size, in the
    order XS, S, M, L, XL, whose waist range contains the waist (bounds
    included) and whose inseam is within 1.5 of the given one, and [M]
    when there is none; hence on a boundary 30, 32, 34 or 36 shared by two
    adjacent ranges, an inseam within 1.5 of the smaller size's chart
    inseam gives the smaller size. *)
Theorem recommended_first_fit w i :
  calculateRecommendedSize w i = spec_recommended w i chart_numbers /\
  calculateSuggestedSize w i = spec_recommended w i chart_numbers /\
  (Qabs (i - 28) <= 3 # 2 -> calculateRecommendedSize 30 i = "XS") /\
  (Qabs (i - 29) <= 3 # 2 -> calculateRecommendedSize 32 i = "S") /\
  (Qabs (i - 30) <= 3 # 2 -> calculateRecommendedSize 34 i = "M") /\
  (Qabs (i - 31) <= 3 # 2 -> calculateRecommendedSize 36 i = "L").
Proof.
  split; [apply first_fitting_chart|].
  split; [apply first_fitting_chart|].
  unfold calculateRecommendedSize. rewrite !first_fitting_chart.
  repeat split; intro H; apply Qle_bool_iff in H;
    cbn [spec_recommended chart_numbers]; rewrite ?H; vm_compute; reflexivity.
Qed.

Lemma recommended_first_fit_witness :
  calculateRecommendedSize 32 29 = spec_recommended 32 29 chart_numbers /\
  calculateRecommendedSize 30 28 = "XS" /\ calculateRecommendedSize 32 29 = "S" /\
  calculateRecommendedSize 34 31 = "M" /\ calculateRecommendedSize 36 (63 # 2) = "L".
Proof.
  split; [exact (proj1 (recommended_first_fit 32 29))|].
  split; [apply (proj1 (proj2 (proj2 (recommended_first_fit 30 28)))); vm_compute; discriminate|].
  split; [apply (proj1 (proj2 (proj2 (proj2 (recommended_first_fit 32 29))))); vm_compute; discriminate|].
  split; [apply (proj1 (proj2 (proj2 (proj2 (proj2 (recommended_first_fit 34 31)))))); vm_compute; discriminate|].
  apply (proj2 (proj2 (proj2 (proj2 (proj2 (recommended_first_fit 36 (63 # 2))))))); vm_compute; discriminate.
Defined.

(** ** Further properties of the Local Cart Store *)

Lemma saveLocalCart_calls items st :
  calls (snd (saveLocalCart items st)) =
    (calls st ++ match localStorage st, sessionStorage st with
                 | Avail _, _ => [LsSet]
                 | _, Avail _ => [LsSet; SsSet]
                 | _, _ => [LsSet; SsSet; Warn "Unable to save cart to storage, using memory only"]
                 end)%list.
Proof.
  unfold saveLocalCart, try_catch, bind, set_memoryCart, setItem, emit, put_slot, slot_of; simpl.
  destruct (localStorage st); destruct (sessionStorage st); simpl; rewrite <- ?app_assoc; reflexivity.
Qed.

(** X1: right after [saveLocalCart items], [memoryCart] holds [items], and
    [getLocalCart] returns [items] when the area the cart is read from
    accepts writes.  When that area rejects writes but still reads
    (localStorage full or in private mode; or localStorage disabled and
    sessionStorage full), it returns the cart stored before: the write is
    lost to every later read. *)
Theorem save_then_get items st :
  memoryCart (snd (saveLocalCart items st)) = items /\
  fst (getLocalCart (snd (saveLocalCart items st)))
  = Ok (if writes_readable st then items else cart_of st).
Proof.
  destruct (saveLocalCart_spec items st) as (st' & E & C & _ & M & _).
  rewrite E. simpl. rewrite getLocalCart_spec. simpl. rewrite C. split; [exact M|reflexivity].
Qed.

(** X2: whatever the storage configuration, after [clearLocalCart] the
    cart reads empty and the in-memory mirror is empty. *)
Theorem clear_then_get st :
  fst (getLocalCart (snd (clearLocalCart st))) = Ok [] /\
  memoryCart (snd (clearLocalCart st)) = [].
Proof.
  destruct (clearLocalCart_spec st) as (st' & E & C & Mc & _).
  rewrite E. simpl. rewrite getLocalCart_spec. simpl. rewrite C. split; [reflexivity|exact Mc].
Qed.

(** X3: [saveLocalCart] tries localStorage, then sessionStorage, and stops
    at the first area that accepts the write; it warns only when both
    throw.  When localStorage accepts the write, sessionStorage keeps its
    contents. *)
Theorem save_fallback_order items st :
  calls (snd (saveLocalCart items st)) =
    (calls st ++ match localStorage st, sessionStorage st with
                 | Avail _, _ => [LsSet]
                 | _, Avail _ => [LsSet; SsSet]
                 | _, _ => [LsSet; SsSet; Warn "Unable to save cart to storage, using memory only"]
                 end)%list /\
  (forall v, localStorage st = Avail v ->
   sessionStorage (snd (saveLocalCart items st)) = sessionStorage st).
Proof.
  split; [apply saveLocalCart_calls|].
  intros v H. unfold saveLocalCart, try_catch, bind, set_memoryCart, setItem, emit, put_slot, slot_of; simpl.
  rewrite H. reflexivity.
Qed.

Lemma save_fallback_order_witness :
  localStorage (st_local []) = Avail (Some []) /\
  sessionStorage (snd (saveLocalCart [line "a" "M" 1] (st_local []))) = sessionStorage (st_local []).
Proof.
  split; [reflexivity|].
  exact (proj2 (save_fallback_order [line "a" "M" 1] (st_local [])) (Some []) eq_refl).
Defined.



Lemma removeFromLocalCart_as_save id st :
  removeFromLocalCart id st =
    saveLocalCart (filter (fun item => negb (String.eqb (localId item) id)) (cart_of st)) st.
Proof. unfold removeFromLocalCart, bind at 1. rewrite getLocalCart_spec. reflexivity. Qed.






Lemma filter_no_id id l :
  Forall (fun i => localId i <> id) l ->
  filter (fun item => negb (String.eqb (localId item) id)) l = l.
Proof.
  induction 1 as [|x t Hx _ IH]; simpl; [reflexivity|].
  apply String.eqb_neq in Hx. rewrite Hx. simpl. f_equal. exact IH.
Qed.

(** X5: adding an item whose [(productName, size)] is not yet in the cart
    and then removing it by the id it was given restores the cart, as long
    as no earlier line carried that id. *)
Theorem add_then_remove item st :
  existsb (same_line item) (cart_of st) = false ->
  Forall (fun i => localId i <> uuid_for (crypto_ok st) (seed st)) (cart_of st) ->
  cart_of (snd (removeFromLocalCart (uuid_for (crypto_ok st) (seed st))
                  (snd (addToLocalCart item st)))) = cart_of st.
Proof.
  intros Hn Hid.
  destruct (addToLocalCart_spec item st) as (s1 & E1 & C1 & Sh1 & _).
  rewrite E1. simpl.
  destruct (removeFromLocalCart_spec (uuid_for (crypto_ok st) (seed st)) s1) as (s2 & E2 & C2 & _).
  rewrite E2. simpl. rewrite C2, (writes_readable_shape _ _ Sh1), C1.
  destruct (writes_readable st); [|reflexivity].
  unfold MemList.add, MemList.remove. rewrite Hn, filter_app. simpl.
  unfold has_id at 2. simpl. rewrite String.eqb_refl. simpl. rewrite app_nil_r.
  exact (filter_no_id _ _ Hid).
Qed.

Lemma add_then_remove_witness :
  existsb (same_line (sweatpants "L" 2)) (cart_of (st_local [line "a" "M" 1])) = false /\
  cart_of (snd (removeFromLocalCart (uuid_for true 0)
                  (snd (addToLocalCart (sweatpants "L" 2) (st_local [line "a" "M" 1])))))
  = cart_of (st_local [line "a" "M" 1]).
Proof.
  split; [reflexivity|].
  apply (add_then_remove (sweatpants "L" 2) (st_local [line "a" "M" 1])).
  - reflexivity.
  - constructor; [discriminate|constructor].
Defined.

(** X6: removing an id that no line carries leaves the cart as it was,
    but still writes it back to storage: unlike
    [updateLocalCartQuantity], it is not a no-op on storage. *)
Theorem remove_absent_id_still_writes id st :
  Forall (fun i => localId i <> id) (cart_of st) ->
  cart_of (snd (removeFromLocalCart id st)) = cart_of st /\
  exists c cs, calls (snd (removeFromLocalCart id st)) = (calls st ++ c :: cs)%list.
Proof.
  intro Hid. rewrite removeFromLocalCart_as_save. split.
  - destruct (saveLocalCart_spec (filter (fun item => negb (String.eqb (localId item) id)) (cart_of st)) st)
      as (st' & E & C & _). rewrite E. simpl. rewrite C, (filter_no_id _ _ Hid).
    destruct (writes_readable st); reflexivity.
  - rewrite saveLocalCart_calls.
    destruct (localStorage st); destruct (sessionStorage st); eexists; eexists; reflexivity.
Qed.

Lemma remove_absent_id_still_writes_witness :
  cart_of (snd (removeFromLocalCart "zz" (st_local [line "a" "M" 1])))
  = cart_of (st_local [line "a" "M" 1]).
Proof.
  apply (proj1 (remove_absent_id_still_writes "zz" (st_local [line "a" "M" 1])
                  ltac:(constructor; [discriminate|constructor]))).
Defined.

(** ** Further properties of the cart view on the remote table *)

Lemma pop_net_spec r :
  fst (pop_net r) = hd false (net r) /\ rows (snd (pop_net r)) = rows r.
Proof. unfold pop_net. destruct (net r); split; reflexivity. Qed.

Lemma filter_user_update u rid q rs :
  filter (fun row => String.eqb (user_id row) u)
    (map (fun row => if Nat.eqb (id row) rid && String.eqb (user_id row) u
                     then with_row_quantity q row else row) rs)
  = map (fun item => if Nat.eqb (id item) rid then with_row_quantity q item else item)
      (filter (fun row => String.eqb (user_id row) u) rs).
Proof.
  induction rs as [|x t IH]; simpl; [reflexivity|].
  destruct (String.eqb (user_id x) u) eqn:U.
  - rewrite andb_true_r. destruct (Nat.eqb (id x) rid) eqn:I; simpl; rewrite ?U, ?I; simpl;
      rewrite ?U, ?I; f_equal; exact IH.
  - rewrite andb_false_r. rewrite U. exact IH.
Qed.

Lemma filter_user_delete u rid rs :
  filter (fun row => String.eqb (user_id row) u)
    (filter (fun row => negb (Nat.eqb (id row) rid && String.eqb (user_id row) u)) rs)
  = filter (fun item => negb (Nat.eqb (id item) rid))
      (filter (fun row => String.eqb (user_id row) u) rs).
Proof.
  induction rs as [|x t IH]; simpl; [reflexivity|].
  destruct (String.eqb (user_id x) u) eqn:U.
  - rewrite andb_true_r. destruct (Nat.eqb (id x) rid) eqn:I; simpl; rewrite ?U, ?I; simpl;
      rewrite ?U, ?I; [exact IH|]. f_equal; exact IH.
  - rewrite andb_false_r. simpl. rewrite U. exact IH.
Qed.

(** X7: [Cart.updateQuantity] for a signed-in user.  Below 1 nothing is
    sent and the view is unchanged.  Otherwise, when the view showed the
    user's rows and the update goes through, the view still shows exactly
    the user's rows; when the update fails, the table keeps the old
    quantity while the view shows the new one. *)
Theorem remote_update_quantity_view u rid q items r :
  items = filter (fun row => String.eqb (user_id row) u) (rows r) ->
  ((q < 1)%Z -> Cart_updateQuantity u rid q items r = (items, r)) /\
  ((1 <= q)%Z -> hd false (net r) = false ->
     fst (Cart_updateQuantity u rid q items r)
     = filter (fun row => String.eqb (user_id row) u) (rows (snd (Cart_updateQuantity u rid q items r)))) /\
  ((1 <= q)%Z -> hd false (net r) = true ->
     rows (snd (Cart_updateQuantity u rid q items r)) = rows r /\
     fst (Cart_updateQuantity u rid q items r)
     = map (fun item => if Nat.eqb (id item) rid then with_row_quantity q item else item) items).
Proof.
  intro Hs. unfold Cart_updateQuantity, remote_update_quantity.
  destruct (pop_net_spec r) as [Pf Pr].
  destruct (pop_net r) as [fail r1]. simpl in Pf, Pr. subst fail.
  split; [|split].
  - intro Hq. apply Z.ltb_lt in Hq. rewrite Hq. reflexivity.
  - intros Hq Hn. assert (Z.ltb q 1 = false) as Hq' by (apply Z.ltb_ge; exact Hq).
    rewrite Hq', Hn. simpl. rewrite filter_user_update, Pr, Hs. reflexivity.
  - intros Hq Hn. assert (Z.ltb q 1 = false) as Hq' by (apply Z.ltb_ge; exact Hq).
    rewrite Hq', Hn. simpl. split; [exact Pr|reflexivity].
Qed.

Lemma remote_update_quantity_view_witness :
  [sample_row] = filter (fun row => String.eqb (user_id row) "u1")
                   (rows {| rows := [sample_row]; next_row := 8; net := [] |}) /\
  fst (Cart_updateQuantity "u1" 7 3 [sample_row] {| rows := [sample_row]; next_row := 8; net := [] |})
  = filter (fun row => String.eqb (user_id row) "u1")
      (rows (snd (Cart_updateQuantity "u1" 7 3 [sample_row]
                    {| rows := [sample_row]; next_row := 8; net := [] |}))).
Proof.
  split; [reflexivity|].
  apply (proj1 (proj2 (remote_update_quantity_view "u1" 7 3 [sample_row]
                         {| rows := [sample_row]; next_row := 8; net := [] |} eq_refl)));
    [lia|reflexivity].
Defined.

(** X8: [Cart.removeItem] for a signed-in user.  When the view showed the
    user's rows and the delete goes through, the view still shows exactly
    the user's rows; when it fails, the row stays in the table although
    the view no longer shows it. *)
Theorem remote_remove_view u rid items r :
  items = filter (fun row => String.eqb (user_id row) u) (rows r) ->
  (hd false (net r) = false ->
     fst (Cart_removeItem u rid items r)
     = filter (fun row => String.eqb (user_id row) u) (rows (snd (Cart_removeItem u rid items r)))) /\
  (hd false (net r) = true ->
     rows (snd (Cart_removeItem u rid items r)) = rows r /\
     fst (Cart_removeItem u rid items r) = filter (fun item => negb (Nat.eqb (id item) rid)) items).
Proof.
  intro Hs. unfold Cart_removeItem, remote_delete.
  destruct (pop_net_spec r) as [Pf Pr].
  destruct (pop_net r) as [fail r1]. simpl in Pf, Pr. subst fail.
  split.
  - intro Hn. rewrite Hn. simpl. rewrite filter_user_delete, Pr, Hs. reflexivity.
  - intro Hn. rewrite Hn. simpl. split; [exact Pr|reflexivity].
Qed.

Lemma remote_remove_view_witness :
  [sample_row] = filter (fun row => String.eqb (user_id row) "u1")
                   (rows {| rows := [sample_row]; next_row := 8; net := [true] |}) /\
  rows (snd (Cart_removeItem "u1" 7 [sample_row] {| rows := [sample_row]; next_row := 8; net := [true] |}))
  = rows {| rows := [sample_row]; next_row := 8; net := [true] |} /\
  fst (Cart_removeItem "u1" 7 [sample_row] {| rows := [sample_row]; next_row := 8; net := [true] |})
  = filter (fun item => negb (Nat.eqb (id item) 7)) [sample_row].
Proof.
  split; [reflexivity|].
  apply (proj2 (remote_remove_view "u1" 7 [sample_row]
                  {| rows := [sample_row]; next_row := 8; net := [true] |} eq_refl)).
  reflexivity.
Defined.

(** ** Further properties of the auth session storage *)

Lemma kv_get_set k v m : kv_get k (kv_set k v m) = Some v.
Proof. simpl. rewrite String.eqb_refl. reflexivity. Qed.

Lemma kv_get_del_same k m : kv_get k (kv_del k m) = None.
Proof.
  induction m as [|[k' v'] t IH]; simpl; [reflexivity|].
  destruct (String.eqb k' k) eqn:E; simpl; [exact IH|]. rewrite E. exact IH.
Qed.

Lemma kv_get_del_other k k' m : k' <> k -> kv_get k' (kv_del k m) = kv_get k' m.
Proof.
  intro D. induction m as [|[k0 v0] t IH]; simpl; [reflexivity|].
  destruct (String.eqb k0 k) eqn:E; simpl.
  - apply String.eqb_eq in E. subst k0.
    assert (String.eqb k k' = false) as F by (apply String.eqb_neq; congruence).
    rewrite F. exact IH.
  - destruct (String.eqb k0 k'); [reflexivity|exact IH].
Qed.

Lemma kv_get_set_other k k' v m : k' <> k -> kv_get k' (kv_set k v m) = kv_get k' m.
Proof.
  intro D. simpl. assert (String.eqb k k' = false) as F by (apply String.eqb_neq; congruence).
  rewrite F. apply kv_get_del_other. exact D.
Qed.

(** X9: the auth session adapter reads back what it wrote when the area
    it reads from accepts writes, except that in memory-only mode an empty
    string reads back as [null] ([memoryStorage[key] || null]).  When the
    area read from rejects writes but still reads (localStorage full or in
    private mode; or localStorage disabled and sessionStorage full), the
    value goes to the next area while reads keep returning the old one.
    Writing one key leaves every other key as it was. *)
Theorem storage_item_set_get k v s :
  getStorageItem k (setStorageItem k v s)
  = match a_local s, a_session s with
    | KAvail _, _ => Some v
    | KReadOnly m, _ => kv_get k m
    | KBroken, KAvail _ => Some v
    | KBroken, KReadOnly m => kv_get k m
    | KBroken, KBroken => if String.eqb v "" then None else Some v
    end /\
  (forall k', k' <> k -> getStorageItem k' (setStorageItem k v s) = getStorageItem k' s).
Proof.
  unfold getStorageItem, setStorageItem.
  destruct (a_local s); destruct (a_session s); cbn [a_local a_session memoryStorage];
    (split; [rewrite ?kv_get_set; reflexivity|]);
    intros k' D; rewrite ?kv_get_set_other by exact D; reflexivity.
Qed.

(** X10: after [removeStorageItem k], [getStorageItem k] returns [null]
    in every storage configuration. *)
Theorem storage_item_remove_get k s :
  getStorageItem k (removeStorageItem k s) = None.
Proof.
  unfold getStorageItem, removeStorageItem.
  destruct (a_local s); destruct (a_session s); simpl; rewrite kv_get_del_same; reflexivity.
Qed.

(** ** Further properties of [handleShopifyCheckout] *)

Lemma shop_pop_spec s :
  fst (shop_pop s) = hd false (shop_net s) /\
  product_variants (snd (shop_pop s)) = product_variants s /\
  checkout_id (snd (shop_pop s)) = checkout_id s /\
  web_url (snd (shop_pop s)) = web_url s /\
  shop_net (snd (shop_pop s)) = tl (shop_net s).
Proof. unfold shop_pop. destruct (shop_net s) eqn:E; repeat split; simpl; rewrite ?E; reflexivity. Qed.

Lemma add_lines_ok cid v url ls s :
  Forall (fun b => b = false) (shop_net s) ->
  add_lines cid v url ls s = ((map (line_call cid v) ls ++ [Redirect url])%list, None).
Proof.
  revert s. induction ls as [|l ls IH]; intros s Hs; simpl; [reflexivity|].
  destruct (shop_pop_spec s) as (P1 & _ & _ & _ & P5).
  destruct (shop_pop s) as [fail s']. simpl in P1, P5.
  assert (fail = false) as ->.
  { rewrite P1. destruct Hs; [reflexivity|exact H]. }
  rewrite IH; [reflexivity|]. rewrite P5. destruct Hs; [constructor|exact Hs].
Qed.

Lemma add_lines_redirect cid v url ls s :
  (forall u, In (Redirect u) (fst (add_lines cid v url ls s)) -> snd (add_lines cid v url ls s) = None) /\
  (snd (add_lines cid v url ls s) = None ->
     exists u, last (fst (add_lines cid v url ls s)) FetchProduct = Redirect u).
Proof.
  revert s. induction ls as [|l ls IH]; intro s; simpl.
  - split; [reflexivity|]. intros _. exists url. reflexivity.
  - destruct (shop_pop s) as [fail s'].
    destruct fail; simpl.
    + split; [|discriminate]. intros u [H|[]]. discriminate.
    + destruct (IH s') as [IH1 IH2].
      destruct (add_lines cid v url ls s') as [cs e]; simpl in *.
      split.
      * intros u [H|H]; [discriminate|]. exact (IH1 u H).
      * intro He. destruct (IH2 He) as [u Hu]. exists u.
        destruct cs; [discriminate|exact Hu].
Qed.

(** X11: when [product.fetch] resolves to nothing or to a product without
    variants, the handler stops after the fetch with the error
    ['Product not found']: no checkout is created and no redirect
    happens. *)
Theorem checkout_product_missing user st r s :
  hd false (shop_net s) = false ->
  (product_variants s = None \/ product_variants s = Some []) ->
  handleShopifyCheckout user st r s = ([FetchProduct], Some "Product not found").
Proof.
  intros Hf Hv. unfold handleShopifyCheckout.
  destruct (shop_pop_spec s) as (P1 & P2 & _).
  destruct (shop_pop s) as [fail s1]. simpl in P1, P2. rewrite P1, Hf, P2.
  destruct Hv as [-> | ->]; reflexivity.
Qed.

Lemma checkout_product_missing_witness :
  handleShopifyCheckout None (st_local []) empty_remote
    {| product_variants := Some []; checkout_id := "c"; web_url := "w"; shop_net := [] |}
  = ([FetchProduct], Some "Product not found").
Proof.
  apply checkout_product_missing; [reflexivity|right; reflexivity].
Defined.

(** X12: when every platform call succeeds, the handler fetches the
    product, creates one checkout, adds one line item per cart item, in
    cart order, with the first variant, the item's quantity and a [Size]
    attribute, and then redirects to the checkout.  For a guest the items
    are the Local Cart Store's; for a signed-in user whose select
    succeeds they are the user's rows. *)
Theorem checkout_all_succeed st r s v vs :
  Forall (fun b => b = false) (shop_net s) ->
  product_variants s = Some (v :: vs) ->
  handleShopifyCheckout None st r s
  = (FetchProduct :: CreateCheckout ::
       (map (line_call (checkout_id s) v) (lines_of_local (cart_of st)) ++ [Redirect (web_url s)])%list,
     None) /\
  (forall u, hd false (net r) = false ->
   handleShopifyCheckout (Some u) st r s
   = (FetchProduct :: CreateCheckout ::
        (map (line_call (checkout_id s) v)
           (lines_of_rows (filter (fun row => String.eqb (user_id row) u) (rows r)))
         ++ [Redirect (web_url s)])%list,
      None)).
Proof.
  intros Hs Hv. unfold handleShopifyCheckout.
  destruct (shop_pop_spec s) as (P1 & P2 & P3 & P4 & P5).
  destruct (shop_pop s) as [f1 s1]. simpl in P1, P2, P3, P4, P5.
  assert (f1 = false) as ->.
  { rewrite P1. destruct Hs; [reflexivity|exact H]. }
  assert (Forall (fun b => b = false) (shop_net s1)) as Hs1.
  { rewrite P5. destruct Hs; [constructor|exact Hs]. }
  rewrite P2, Hv.
  destruct (shop_pop_spec s1) as (Q1 & _ & Q3 & Q4 & Q5).
  destruct (shop_pop s1) as [f2 s2]. simpl in Q1, Q3, Q4, Q5.
  assert (f2 = false) as ->.
  { rewrite Q1. destruct Hs1; [reflexivity|exact H]. }
  assert (Forall (fun b => b = false) (shop_net s2)) as Hs2.
  { rewrite Q5. destruct Hs1; [constructor|exact Hs1]. }
  split.
  - rewrite getLocalCart_spec, add_lines_ok by exact Hs2. rewrite Q3, Q4, P3, P4. reflexivity.
  - intros u Hn. unfold remote_select.
    destruct (pop_net_spec r) as [R1 R2].
    destruct (pop_net r) as [fail r1]. simpl in R1, R2. rewrite R1, Hn. simpl.
    rewrite add_lines_ok by exact Hs2. rewrite Q3, Q4, P3, P4, R2. reflexivity.
Qed.

Lemma checkout_all_succeed_witness :
  Forall (fun b => b = false)
    (shop_net {| product_variants := Some ["v1"]; checkout_id := "c"; web_url := "w"; shop_net := [] |}) /\
  handleShopifyCheckout None (st_local [line "a" "M" 2]) empty_remote
    {| product_variants := Some ["v1"]; checkout_id := "c"; web_url := "w"; shop_net := [] |}
  = ([FetchProduct; CreateCheckout; line_call "c" "v1" (2%Z, "M"); Redirect "w"], None).
Proof.
  split; [constructor|].
  apply (proj1 (checkout_all_succeed (st_local [line "a" "M" 2]) empty_remote
                  {| product_variants := Some ["v1"]; checkout_id := "c"; web_url := "w"; shop_net := [] |}
                  "v1" [] (Forall_nil _) eq_refl)).
Defined.

Lemma firstn_repeat_false_cons k b bs :
  firstn (S k) (b :: bs) = repeat false (S k) -> b = false /\ firstn k bs = repeat false k.
Proof. simpl. intro H. inversion H. split; reflexivity. Qed.

(** A rejected [addLineItems] at position [k] of the loop, after [k]
    accepted ones, ends it with the error. *)
Lemma add_lines_fail cid v url k ls s :
  (k < length ls)%nat ->
  firstn k (shop_net s) = repeat false k ->
  nth k (shop_net s) false = true ->
  add_lines cid v url ls s = (map (line_call cid v) (firstn (S k) ls), Some "addLineItems failed").
Proof.
  revert ls s. induction k as [|k IH]; intros ls s Hk Hf Hn.
  - destruct ls as [|l ls]; simpl in Hk; [lia|]. simpl.
    unfold shop_pop. destruct (shop_net s) as [|b bs]; simpl in Hn; [discriminate|].
    subst b. reflexivity.
  - destruct ls as [|l ls]; simpl in Hk; [lia|]. simpl.
    destruct (shop_pop_spec s) as (P1 & _ & _ & _ & P5).
    destruct (shop_pop s) as [fail s']. simpl in P1, P5.
    destruct (shop_net s) as [|b bs]; [simpl in Hf; discriminate|].
    apply firstn_repeat_false_cons in Hf. destruct Hf as [Hb Hf].
    simpl in P1. rewrite P1, Hb.
    rewrite (IH ls s'); [reflexivity|lia|rewrite P5; exact Hf|rewrite P5; exact Hn].
Qed.

(** X13: the browser is redirected only when no error is reported, and
    the redirect is then the handler's last action.  Conversely a
    rejected [addLineItems] in the loop reports an error and stops it:
    for a guest, when the fetch and the creation succeed and the call for
    line [k] is rejected after [k] accepted ones, the calls are the fetch,
    the creation and the first [k + 1] line calls, with no redirect, and
    the lines added before stay in the created checkout. *)
Theorem checkout_redirect_iff_no_error user st r s :
  (forall u, In (Redirect u) (fst (handleShopifyCheckout user st r s)) ->
     snd (handleShopifyCheckout user st r s) = None) /\
  (snd (handleShopifyCheckout user st r s) = None ->
     exists u, last (fst (handleShopifyCheckout user st r s)) FetchProduct = Redirect u) /\
  (forall v vs bs k,
     product_variants s = Some (v :: vs) ->
     shop_net s = false :: false :: bs ->
     (k < length (cart_of st))%nat ->
     firstn k bs = repeat false k ->
     nth k bs false = true ->
     handleShopifyCheckout None st r s
     = (FetchProduct :: CreateCheckout ::
          map (line_call (checkout_id s) v) (firstn (S k) (lines_of_local (cart_of st))),
        Some "addLineItems failed")).
Proof.
  split; [|split].
  - unfold handleShopifyCheckout.
    destruct (shop_pop s) as [f1 s1]. destruct f1.
    { simpl. intros u [H|[]]; discriminate. }
    destruct (product_variants s1) as [[|v vs]|];
      try (simpl; intros u [H|[]]; discriminate).
    destruct (shop_pop s1) as [f2 s2]. destruct f2.
    { simpl. intros u [H|[H|[]]]; discriminate. }
    match goal with
    | |- context [match ?x with Some ls => _ | None => _ end] => destruct x as [ls|]
    end.
    2: { simpl. intros u [H|[H|[]]]; discriminate. }
    destruct (add_lines_redirect (checkout_id s2) v (web_url s2) ls s2) as [A1 _].
    destruct (add_lines (checkout_id s2) v (web_url s2) ls s2) as [cs e]. simpl in *.
    intros u [H|[H|H]]; try discriminate. exact (A1 u H).
  - unfold handleShopifyCheckout.
    destruct (shop_pop s) as [f1 s1]. destruct f1; [simpl; discriminate|].
    destruct (product_variants s1) as [[|v vs]|]; try (simpl; discriminate).
    destruct (shop_pop s1) as [f2 s2]. destruct f2; [simpl; discriminate|].
    match goal with
    | |- context [match ?x with Some ls => _ | None => _ end] => destruct x as [ls|]
    end.
    2: { simpl. discriminate. }
    destruct (add_lines_redirect (checkout_id s2) v (web_url s2) ls s2) as [_ A2].
    destruct (add_lines (checkout_id s2) v (web_url s2) ls s2) as [cs e]. simpl in *.
    intro He. destruct (A2 He) as [u Hu]. exists u.
    destruct cs; [discriminate|exact Hu].
  - intros v vs bs k Hv Hs Hk Hf Hn. unfold handleShopifyCheckout.
    unfold shop_pop at 1. rewrite Hs. cbn [product_variants]. rewrite Hv.
    unfold shop_pop at 1. cbn [shop_net checkout_id web_url].
    rewrite getLocalCart_spec.
    rewrite add_lines_fail with (k := k); cbn [shop_net].
    + reflexivity.
    + unfold lines_of_local. rewrite length_map. exact Hk.
    + exact Hf.
    + exact Hn.
Qed.

Lemma checkout_redirect_iff_no_error_witness :
  handleShopifyCheckout None (st_local [line "a" "M" 2; line "b" "L" 1]) empty_remote
    {| product_variants := Some ["v1"]; checkout_id := "c"; web_url := "w";
       shop_net := [false; false; false; true] |}
  = ([FetchProduct; CreateCheckout; line_call "c" "v1" (2%Z, "M"); line_call "c" "v1" (1%Z, "L")],
     Some "addLineItems failed").
Proof.
  apply (proj2 (proj2 (checkout_redirect_iff_no_error None
           (st_local [line "a" "M" 2; line "b" "L" 1]) empty_remote
           {| product_variants := Some ["v1"]; checkout_id := "c"; web_url := "w";
              shop_net := [false; false; false; true] |}))
         "v1" [] [false; true] 1%nat); try reflexivity.
  simpl. lia.
Defined.

(** ** Further properties of the older cart store *)

(** The cart the older [getLocalCart] reads. *)
Lemma old_getLocalCart_spec st :
  fst (OldCartStorage.getLocalCart st)
  = Ok (match localStorage st with Avail v => parse_or_empty v | _ => memoryCart st end) /\
  localStorage (snd (OldCartStorage.getLocalCart st)) = localStorage st /\
  memoryCart (snd (OldCartStorage.getLocalCart st)) = memoryCart st /\
  crypto_ok (snd (OldCartStorage.getLocalCart st)) = crypto_ok st.
Proof.
  unfold OldCartStorage.getLocalCart, OldCartStorage.isStorageAvailable, bind, emit, try_catch,
    getItem, get_memoryCart, ret, slot_of; simpl.
  destruct (localStorage st); simpl; repeat split.
Qed.

(** X14: in the older copy of the store, adding an item that starts a new
    line throws when [crypto.randomUUID] is unavailable; the only effect
    is the availability probe of the read, the cart is not saved; the
    current store never throws there. *)
Theorem old_add_throws_without_crypto item st l :
  fst (OldCartStorage.getLocalCart st) = Ok l ->
  existsb (same_line item) l = false ->
  crypto_ok st = false ->
  OldCartStorage.addToLocalCart item st = (Thrown, snd (OldCartStorage.getLocalCart st)) /\
  fst (addToLocalCart item st) = Ok tt.
Proof.
  intros Hg Hn Hc. split.
  - destruct (old_getLocalCart_spec st) as (_ & _ & _ & Cr).
    unfold OldCartStorage.addToLocalCart, bind at 1.
    destruct (OldCartStorage.getLocalCart st) as [[l'|] st1]; simpl in Hg, Cr; [|discriminate].
    inversion Hg; subst l'.
    rewrite find_existsb in Hn. destruct (find (same_line item) l); [discriminate|].
    unfold bind, randomUUID. rewrite Cr, Hc. reflexivity.
  - destruct (addToLocalCart_spec item st) as (st' & E & _). rewrite E. reflexivity.
Qed.

Lemma old_add_throws_without_crypto_witness :
  fst (OldCartStorage.getLocalCart (st_memory [])) = Ok [] /\
  OldCartStorage.addToLocalCart (sweatpants "M" 1) (st_memory [])
  = (Thrown, snd (OldCartStorage.getLocalCart (st_memory []))).
Proof.
  split; [reflexivity|].
  apply (proj1 (old_add_throws_without_crypto (sweatpants "M" 1) (st_memory []) []
                  eq_refl eq_refl eq_refl)).
Defined.

(** X15: the older store never writes [sessionStorage].  When
    localStorage is disabled or rejects writes, its [saveLocalCart] only
    sets [memoryCart] and attempts the probe write of
    ['__storage_test__']: the ['cart'] key is not written and no warning
    is logged. *)
Theorem old_save_memory_only items st :
  sessionStorage (snd (OldCartStorage.saveLocalCart items st)) = sessionStorage st /\
  ((forall v, localStorage st <> Avail v) ->
   OldCartStorage.saveLocalCart items st
   = (Ok tt, {| localStorage := localStorage st; sessionStorage := sessionStorage st;
                memoryCart := items; crypto_ok := crypto_ok st; seed := seed st;
                calls := (calls st ++ [LsTestSet])%list |})).
Proof.
  unfold OldCartStorage.saveLocalCart, OldCartStorage.isStorageAvailable, bind, set_memoryCart,
    try_catch, setItem, emit, put_slot, slot_of, ret; simpl.
  destruct (localStorage st) eqn:L; simpl.
  - split; [reflexivity|]. intros _. reflexivity.
  - split; [reflexivity|]. intro H. exfalso. exact (H v eq_refl).
  - split; [reflexivity|]. intros _. reflexivity.
Qed.

Lemma old_save_memory_only_witness :
  OldCartStorage.saveLocalCart [line "a" "M" 1] (st_memory [])
  = (Ok tt, {| localStorage := Broken; sessionStorage := Broken; memoryCart := [line "a" "M" 1];
               crypto_ok := false; seed := 0; calls := [LsTestSet] |}).
Proof.
  apply (proj2 (old_save_memory_only [line "a" "M" 1] (st_memory []))).
  intros v H. discriminate H.
Defined.

